(** * Samsung TV media player entity

    A shallow embedding of [SamsungTVDevice] from
    [homeassistant/components/samsungtv/media_player.py]: the polling tick
    ([async_update]), the power-off debounce, the app-list gate, the UPnP
    (DMR) session start-up and tear-down, and the command surface.

    The entity is an object with mutable attributes that runs on a
    single-threaded event loop.  It is modelled as a record [Device]; its
    coroutines are computations in a state-and-exception monad [M] over
    - the entity ([self]),
    - the objects it allocates and mutates through references (DMR
      devices and notify servers),
    - a chronological log of what the entity did to the outside world, and
    - a counter of suspensions ([await]s).

    Everything outside the entity (the bridge, the UPnP library, the
    callbacks that fire while a coroutine is suspended) is a [World]: an
    oracle indexed by the suspension counter. *)

From Stdlib Require Import ZArith List String Ascii Bool Lia.
Import ListNotations.
Local Open Scope string_scope.
Local Open Scope Z_scope.
Local Open Scope list_scope.

(** ** Exceptions

    The classes the source names, with the sub-class relation of
    [async_upnp_client.exceptions]:
    [UpnpActionResponseError <: UpnpResponseError <: UpnpError] and
    [UpnpConnectionError <: UpnpError].  A value of [Exn] is the most
    derived class of a raised exception; [UpnpError] itself stands for
    every UPnP error that is neither a response nor a connection error. *)

Inductive Exn : Type :=
| UpnpError
| UpnpResponseError
| UpnpActionResponseError
| UpnpConnectionError
| TimeoutError
| AssertionError
| AttributeError
| Invalid.

(** [isinstance e cls]: what [except cls] matches. *)
Definition isinstance (e cls : Exn) : bool :=
  match cls, e with
  | UpnpError, (UpnpError | UpnpResponseError
                | UpnpActionResponseError | UpnpConnectionError) => true
  | UpnpResponseError, (UpnpResponseError | UpnpActionResponseError) => true
  | UpnpActionResponseError, UpnpActionResponseError => true
  | UpnpConnectionError, UpnpConnectionError => true
  | TimeoutError, TimeoutError => true
  | AssertionError, AssertionError => true
  | AttributeError, AttributeError => true
  | Invalid, Invalid => true
  | _, _ => false
  end.

(** ** Values *)

(** [datetime] and [timedelta] in microseconds, the resolution of Python's
    [datetime]. *)
Definition datetime := Z.
Definition timedelta := Z.
Definition timedelta_seconds (s : Z) : timedelta := s * 1000000.

(** A Python [float] is only stored and passed on by this module, never
    computed with: it is represented by its IEEE-754 bit pattern. *)
Definition float := Z.

(** [STATE_ON] / [STATE_OFF] of [homeassistant.const], the only two values
    the module ever stores in [_attr_state]. *)
Inductive state : Type := STATE_ON | STATE_OFF.

Definition state_eqb (a b : option state) : bool :=
  match a, b with
  | Some STATE_ON, Some STATE_ON => true
  | Some STATE_OFF, Some STATE_OFF => true
  | None, None => true
  | _, _ => false
  end.

(** A [dict[str, str]] in insertion order. *)
Definition dict := list (string * string).

Definition dict_keys (d : dict) : list string := map fst d.

Fixpoint dict_get (d : dict) (k : string) : option string :=
  match d with
  | [] => None
  | (k', v) :: d' => if String.eqb k k' then Some v else dict_get d' k
  end.

Definition SOURCES : dict := [("TV", "KEY_TV"); ("HDMI", "KEY_HDMI")].

(** [APP_LIST_DELAY = 3] (seconds). *)
Definition APP_LIST_DELAY : Z := 3.

(** The two bridge implementations; only [isinstance(_, SamsungTVWSBridge)]
    is ever asked of a bridge. *)
Inductive Bridge : Type := SamsungTVLegacyBridge | SamsungTVWSBridge.

Definition is_ws_bridge (b : Bridge) : bool :=
  match b with SamsungTVWSBridge => true | SamsungTVLegacyBridge => false end.

(** The turn-on [Script], opaque but for its name. *)
Inductive Script : Type := MkScript (name : string).

Record HomeAssistant : Type := { is_stopping : bool }.

Record ConfigEntry : Type := {
  CONF_HOST : option string;
  CONF_MAC : option string;
  CONF_SSDP_RENDERING_CONTROL_LOCATION : option string
}.

(** A Python [str] is held as its UTF-8 encoding.  Iterating over a [str]
    yields its characters (code points), one at a time: in the encoding a
    character is a lead byte followed by its continuation bytes, those of
    the form 10xxxxxx. *)
Definition is_continuation (c : ascii) : bool :=
  match c with Ascii _ _ _ _ _ _ b6 b7 => b7 && negb b6 end.

Definition starts_with_continuation (s : string) : bool :=
  match s with
  | String c _ => is_continuation c
  | EmptyString => false
  end.

Fixpoint characters (s : string) : list string :=
  match s with
  | EmptyString => []
  | String c s' =>
      match characters s' with
      | ch :: chs =>
          if starts_with_continuation ch then String c ch :: chs
          else String c "" :: ch :: chs
      | [] => [String c ""]
      end
  end.

(** Python truthiness of an optional string and of an optional dict. *)
Definition truthy_str (o : option string) : bool :=
  match o with
  | Some s => negb (String.eqb s "")
  | None => false
  end.

Definition truthy_dict (o : option dict) : bool :=
  match o with
  | Some [] => false
  | Some _ => true
  | None => false
  end.

Definition is_some {A : Type} (o : option A) : bool :=
  match o with Some _ => true | None => false end.

(** ** Objects reached through references *)

(** The [UpnpDevice] a factory builds from a location. *)
Inductive UpnpDevice : Type := MkUpnpDevice (location : string).

(** A [DmrDevice]: the handle it wraps, the notify server whose event
    handler it uses, whether [on_event] holds the entity's handler, and
    the two properties the entity reads. *)
Record DmrDevice : Type := {
  dmr_device : UpnpDevice;
  dmr_event_handler : nat;
  on_event : bool;
  volume_level : option float;
  is_volume_muted : option bool
}.

(** An [AiohttpNotifyServer]: its bind address and whether it listens. *)
Record NotifyServer : Type := {
  ns_source : string * Z;
  ns_running : bool
}.

Fixpoint list_update {A : Type} (l : list A) (i : nat) (f : A -> A) : list A :=
  match l, i with
  | [], _ => []
  | x :: l', O => f x :: l'
  | x :: l', S i' => x :: list_update l' i' f
  end.

(** ** The entity *)

Record Device : Type := {
  hass : HomeAssistant;
  _host : option string;
  _mac : option string;
  _ssdp_rendering_control_location : option string;
  _on_script : option Script;
  _playing : bool;
  _attr_state : option state;
  _attr_is_volume_muted : bool;
  _attr_volume_level : option float;
  _attr_source_list : list string;
  _app_list : option dict;
  _app_list_event : bool;
  _end_of_power_off : option datetime;
  _bridge : Bridge;
  _auth_failed : bool;
  _dmr_device : option nat;
  _upnp_server : option nat
}.

(** [__init__].  The attributes that only describe the entity to the
    registry (name, unique id, device info, feature bits) play no part in
    the methods below and are left out. *)
Definition init (h : HomeAssistant) (bridge : Bridge)
    (config_entry : ConfigEntry) (on_script : option Script) : Device :=
  {| hass := h;
     _host := CONF_HOST config_entry;
     _mac := CONF_MAC config_entry;
     _ssdp_rendering_control_location :=
       CONF_SSDP_RENDERING_CONTROL_LOCATION config_entry;
     _on_script := on_script;
     _playing := true;
     _attr_state := None;
     _attr_is_volume_muted := false;
     _attr_volume_level := None;
     _attr_source_list := dict_keys SOURCES;
     _app_list := None;
     _app_list_event := false;
     _end_of_power_off := None;
     _bridge := bridge;
     _auth_failed := false;
     _dmr_device := None;
     _upnp_server := None |}.

(** Attribute assignments. *)
Definition set_playing (v : bool) (d : Device) : Device :=
  {| hass := hass d; _host := _host d; _mac := _mac d;
     _ssdp_rendering_control_location := _ssdp_rendering_control_location d;
     _on_script := _on_script d; _playing := v;
     _attr_state := _attr_state d;
     _attr_is_volume_muted := _attr_is_volume_muted d;
     _attr_volume_level := _attr_volume_level d;
     _attr_source_list := _attr_source_list d; _app_list := _app_list d;
     _app_list_event := _app_list_event d;
     _end_of_power_off := _end_of_power_off d; _bridge := _bridge d;
     _auth_failed := _auth_failed d; _dmr_device := _dmr_device d;
     _upnp_server := _upnp_server d |}.

Definition set_attr_state (v : option state) (d : Device) : Device :=
  {| hass := hass d; _host := _host d; _mac := _mac d;
     _ssdp_rendering_control_location := _ssdp_rendering_control_location d;
     _on_script := _on_script d; _playing := _playing d;
     _attr_state := v;
     _attr_is_volume_muted := _attr_is_volume_muted d;
     _attr_volume_level := _attr_volume_level d;
     _attr_source_list := _attr_source_list d; _app_list := _app_list d;
     _app_list_event := _app_list_event d;
     _end_of_power_off := _end_of_power_off d; _bridge := _bridge d;
     _auth_failed := _auth_failed d; _dmr_device := _dmr_device d;
     _upnp_server := _upnp_server d |}.

Definition set_attr_is_volume_muted (v : bool) (d : Device) : Device :=
  {| hass := hass d; _host := _host d; _mac := _mac d;
     _ssdp_rendering_control_location := _ssdp_rendering_control_location d;
     _on_script := _on_script d; _playing := _playing d;
     _attr_state := _attr_state d;
     _attr_is_volume_muted := v;
     _attr_volume_level := _attr_volume_level d;
     _attr_source_list := _attr_source_list d; _app_list := _app_list d;
     _app_list_event := _app_list_event d;
     _end_of_power_off := _end_of_power_off d; _bridge := _bridge d;
     _auth_failed := _auth_failed d; _dmr_device := _dmr_device d;
     _upnp_server := _upnp_server d |}.

Definition set_attr_volume_level (v : option float) (d : Device) : Device :=
  {| hass := hass d; _host := _host d; _mac := _mac d;
     _ssdp_rendering_control_location := _ssdp_rendering_control_location d;
     _on_script := _on_script d; _playing := _playing d;
     _attr_state := _attr_state d;
     _attr_is_volume_muted := _attr_is_volume_muted d;
     _attr_volume_level := v;
     _attr_source_list := _attr_source_list d; _app_list := _app_list d;
     _app_list_event := _app_list_event d;
     _end_of_power_off := _end_of_power_off d; _bridge := _bridge d;
     _auth_failed := _auth_failed d; _dmr_device := _dmr_device d;
     _upnp_server := _upnp_server d |}.

Definition set_attr_source_list (v : list string) (d : Device) : Device :=
  {| hass := hass d; _host := _host d; _mac := _mac d;
     _ssdp_rendering_control_location := _ssdp_rendering_control_location d;
     _on_script := _on_script d; _playing := _playing d;
     _attr_state := _attr_state d;
     _attr_is_volume_muted := _attr_is_volume_muted d;
     _attr_volume_level := _attr_volume_level d;
     _attr_source_list := v; _app_list := _app_list d;
     _app_list_event := _app_list_event d;
     _end_of_power_off := _end_of_power_off d; _bridge := _bridge d;
     _auth_failed := _auth_failed d; _dmr_device := _dmr_device d;
     _upnp_server := _upnp_server d |}.

Definition set_app_list (v : option dict) (d : Device) : Device :=
  {| hass := hass d; _host := _host d; _mac := _mac d;
     _ssdp_rendering_control_location := _ssdp_rendering_control_location d;
     _on_script := _on_script d; _playing := _playing d;
     _attr_state := _attr_state d;
     _attr_is_volume_muted := _attr_is_volume_muted d;
     _attr_volume_level := _attr_volume_level d;
     _attr_source_list := _attr_source_list d; _app_list := v;
     _app_list_event := _app_list_event d;
     _end_of_power_off := _end_of_power_off d; _bridge := _bridge d;
     _auth_failed := _auth_failed d; _dmr_device := _dmr_device d;
     _upnp_server := _upnp_server d |}.

Definition set_app_list_event (v : bool) (d : Device) : Device :=
  {| hass := hass d; _host := _host d; _mac := _mac d;
     _ssdp_rendering_control_location := _ssdp_rendering_control_location d;
     _on_script := _on_script d; _playing := _playing d;
     _attr_state := _attr_state d;
     _attr_is_volume_muted := _attr_is_volume_muted d;
     _attr_volume_level := _attr_volume_level d;
     _attr_source_list := _attr_source_list d; _app_list := _app_list d;
     _app_list_event := v;
     _end_of_power_off := _end_of_power_off d; _bridge := _bridge d;
     _auth_failed := _auth_failed d; _dmr_device := _dmr_device d;
     _upnp_server := _upnp_server d |}.

Definition set_end_of_power_off (v : option datetime) (d : Device) : Device :=
  {| hass := hass d; _host := _host d; _mac := _mac d;
     _ssdp_rendering_control_location := _ssdp_rendering_control_location d;
     _on_script := _on_script d; _playing := _playing d;
     _attr_state := _attr_state d;
     _attr_is_volume_muted := _attr_is_volume_muted d;
     _attr_volume_level := _attr_volume_level d;
     _attr_source_list := _attr_source_list d; _app_list := _app_list d;
     _app_list_event := _app_list_event d;
     _end_of_power_off := v; _bridge := _bridge d;
     _auth_failed := _auth_failed d; _dmr_device := _dmr_device d;
     _upnp_server := _upnp_server d |}.

Definition set_auth_failed (v : bool) (d : Device) : Device :=
  {| hass := hass d; _host := _host d; _mac := _mac d;
     _ssdp_rendering_control_location := _ssdp_rendering_control_location d;
     _on_script := _on_script d; _playing := _playing d;
     _attr_state := _attr_state d;
     _attr_is_volume_muted := _attr_is_volume_muted d;
     _attr_volume_level := _attr_volume_level d;
     _attr_source_list := _attr_source_list d; _app_list := _app_list d;
     _app_list_event := _app_list_event d;
     _end_of_power_off := _end_of_power_off d; _bridge := _bridge d;
     _auth_failed := v; _dmr_device := _dmr_device d;
     _upnp_server := _upnp_server d |}.

Definition set_dmr_device (v : option nat) (d : Device) : Device :=
  {| hass := hass d; _host := _host d; _mac := _mac d;
     _ssdp_rendering_control_location := _ssdp_rendering_control_location d;
     _on_script := _on_script d; _playing := _playing d;
     _attr_state := _attr_state d;
     _attr_is_volume_muted := _attr_is_volume_muted d;
     _attr_volume_level := _attr_volume_level d;
     _attr_source_list := _attr_source_list d; _app_list := _app_list d;
     _app_list_event := _app_list_event d;
     _end_of_power_off := _end_of_power_off d; _bridge := _bridge d;
     _auth_failed := _auth_failed d; _dmr_device := v;
     _upnp_server := _upnp_server d |}.

Definition set_upnp_server (v : option nat) (d : Device) : Device :=
  {| hass := hass d; _host := _host d; _mac := _mac d;
     _ssdp_rendering_control_location := _ssdp_rendering_control_location d;
     _on_script := _on_script d; _playing := _playing d;
     _attr_state := _attr_state d;
     _attr_is_volume_muted := _attr_is_volume_muted d;
     _attr_volume_level := _attr_volume_level d;
     _attr_source_list := _attr_source_list d; _app_list := _app_list d;
     _app_list_event := _app_list_event d;
     _end_of_power_off := _end_of_power_off d; _bridge := _bridge d;
     _auth_failed := _auth_failed d; _dmr_device := _dmr_device d;
     _upnp_server := v |}.

(** ** What the entity does to the outside world *)

(** Awaited calls on the collaborators.  Each is a suspension point. *)
Inductive Call : Type :=
| bridge_async_is_on
| bridge_async_request_app_list
| bridge_async_send_keys (keys : list string)
| bridge_async_launch_app (app_id : string)
| bridge_async_power_off
| wait_for_app_list_event (timeout : Z)
| upnp_factory_async_create_device (location : string)
| async_get_local_ip (location : string)
| upnp_server_async_start_server (server : nat)
| upnp_server_async_stop_server (server : nat)
| dmr_device_async_subscribe_services (dmr : nat) (auto_resubscribe : bool)
| dmr_device_async_unsubscribe_services (dmr : nat)
| dmr_device_async_set_volume_level (dmr : nat) (volume : float)
| on_script_async_run (script : Script)
| hass_async_add_executor_job_wake_on_lan.

Inductive Level : Type := DEBUG | INFO | WARNING | ERROR.

(** Effects that do not suspend. *)
Inductive Effect : Type :=
| send_magic_packet (mac : option string) (ip_address : option (option string))
| async_write_ha_state
| reauth_flow_async_init.

(** One entry of the log.  [Called c seen] records that the entity
    suspended on [c]; [seen] is the entity as any other task sees it while
    this one is suspended there. *)
Inductive Event : Type :=
| Called (c : Call) (seen : Device)
| Logged (level : Level) (msg : string)
| Did (e : Effect).

(** Callbacks that the collaborators run on the entity while a coroutine
    of it is suspended: the two that [__init__] registers on the bridge
    and the UPnP event notification of a subscribed [DmrDevice]. *)
Inductive Callback : Type :=
| app_list_received (app_list : dict)
| reauth_required
| upnp_notify (dmr : nat) (volume : option float) (muted : option bool).

(** Everything outside this module.

    The collaborators: suspension [n] of a run is answered by index [n].
    A call may raise where the source provides for it (a [try] or a
    [suppress] around it); the calls that the source awaits bare return.

    What other modules of Home Assistant declare and this one imports:
    the poll interval [entity_component.DEFAULT_SCAN_INTERVAL], the media
    types [MEDIA_TYPE_APP] and [MEDIA_TYPE_CHANNEL] of
    [media_player.const], and the validator [cv.positive_int] (whether it
    accepts its argument). *)
Record World : Type := {
  w_delivered : nat -> list Callback;
  w_is_on : nat -> bool;
  w_create_device : nat -> option Exn;
  w_local_ip : nat -> string;
  w_subscribe : nat -> option Exn;
  w_set_volume : nat -> option Exn;
  DEFAULT_SCAN_INTERVAL : timedelta;
  MEDIA_TYPE_APP : string;
  MEDIA_TYPE_CHANNEL : string;
  cv_positive_int : string -> bool
}.

(** ** Machine state *)

Record St : Type := {
  self : Device;
  dmr_devices : list DmrDevice;
  upnp_servers : list NotifyServer;
  log : list Event;
  awaits : nat
}.

Definition with_self (f : Device -> Device) (st : St) : St :=
  {| self := f (self st); dmr_devices := dmr_devices st;
     upnp_servers := upnp_servers st; log := log st; awaits := awaits st |}.

Definition with_dmr_devices (f : list DmrDevice -> list DmrDevice)
    (st : St) : St :=
  {| self := self st; dmr_devices := f (dmr_devices st);
     upnp_servers := upnp_servers st; log := log st; awaits := awaits st |}.

Definition with_upnp_servers (f : list NotifyServer -> list NotifyServer)
    (st : St) : St :=
  {| self := self st; dmr_devices := dmr_devices st;
     upnp_servers := f (upnp_servers st); log := log st; awaits := awaits st |}.

Definition emit (e : Event) (st : St) : St :=
  {| self := self st; dmr_devices := dmr_devices st;
     upnp_servers := upnp_servers st; log := log st ++ [e];
     awaits := awaits st |}.

Definition suspend (st : St) : St :=
  {| self := self st; dmr_devices := dmr_devices st;
     upnp_servers := upnp_servers st; log := log st;
     awaits := S (awaits st) |}.

Definition boot (d : Device) : St :=
  {| self := d; dmr_devices := []; upnp_servers := []; log := [];
     awaits := O |}.

(** ** Synchronous methods and callbacks *)

(** [_update_sources] *)
Definition _update_sources (d : Device) : Device :=
  let d1 := set_attr_source_list (dict_keys SOURCES) d in
  match _app_list d1 with
  | Some app_list =>
      if truthy_dict (Some app_list)
      then set_attr_source_list (_attr_source_list d1 ++ dict_keys app_list) d1
      else d1
  | None => d1
  end.

(** [_app_list_callback] *)
Definition _app_list_callback (app_list : dict) (d : Device) : Device :=
  let d1 := set_app_list (Some app_list) d in
  let d2 := _update_sources d1 in
  set_app_list_event true d2.

(** [access_denied] *)
Definition access_denied (st : St) : St :=
  let st1 := emit (Logged DEBUG "Access denied in getting remote object") st in
  let st2 := with_self (set_auth_failed true) st1 in
  emit (Did reauth_flow_async_init) st2.

(** [_update_from_upnp] *)
Definition _update_from_upnp (st : St) : St :=
  match _dmr_device (self st) with
  | None => st
  | Some r =>
      match nth_error (dmr_devices st) r with
      | None => st
      | Some dmr =>
          let st1 :=
            match volume_level dmr with
            | Some v => with_self (set_attr_volume_level (Some v)) st
            | None => st
            end in
          match is_volume_muted dmr with
          | Some is_muted => with_self (set_attr_is_volume_muted is_muted) st1
          | None => st1
          end
      end
  end.

(** [_on_upnp_event] *)
Definition _on_upnp_event (st : St) : St :=
  emit (Did async_write_ha_state) (_update_from_upnp st).

(** [_power_off_in_progress]; [now] is what [dt_util.utcnow()] returns. *)
Definition _power_off_in_progress (now : datetime) (d : Device) : bool :=
  match _end_of_power_off d with
  | None => false
  | Some end_of_power_off => end_of_power_off >? now
  end.

(** [available] *)
Definition available (now : datetime) (d : Device) : bool :=
  if _auth_failed d then false
  else state_eqb (_attr_state d) (Some STATE_ON)
       || is_some (_on_script d)
       || is_some (_mac d)
       || _power_off_in_progress now d.

(** [_wake_on_lan] *)
Definition _wake_on_lan (st : St) : St :=
  let d := self st in
  let st1 := emit (Did (send_magic_packet (_mac d) (Some (_host d)))) st in
  emit (Did (send_magic_packet (_mac d) None)) st1.

(** The UPnP library stores the notified variables in the [DmrDevice]. *)
Definition store_notified (volume : option float) (muted : option bool)
    (o : DmrDevice) : DmrDevice :=
  {| dmr_device := dmr_device o;
     dmr_event_handler := dmr_event_handler o;
     on_event := on_event o;
     volume_level :=
       match volume with Some v => Some v | None => volume_level o end;
     is_volume_muted :=
       match muted with Some m => Some m | None => is_volume_muted o end |}.

Definition set_on_event (v : bool) (o : DmrDevice) : DmrDevice :=
  {| dmr_device := dmr_device o;
     dmr_event_handler := dmr_event_handler o;
     on_event := v;
     volume_level := volume_level o;
     is_volume_muted := is_volume_muted o |}.

Definition set_running (v : bool) (s : NotifyServer) : NotifyServer :=
  {| ns_source := ns_source s; ns_running := v |}.

(** One callback run on the entity. *)
Definition deliver (cb : Callback) (st : St) : St :=
  match cb with
  | app_list_received app_list => with_self (_app_list_callback app_list) st
  | reauth_required => access_denied st
  | upnp_notify r volume muted =>
      let st1 :=
        with_dmr_devices
          (fun h => list_update h r (store_notified volume muted)) st in
      match nth_error (dmr_devices st1) r with
      | Some dmr => if on_event dmr then _on_upnp_event st1 else st1
      | None => st1
      end
  end.

Definition deliveries (cbs : list Callback) (st : St) : St :=
  fold_left (fun s cb => deliver cb s) cbs st.

(** ** The monad of coroutines *)

Inductive Result (A : Type) : Type :=
| Returned (a : A)
| Raised (e : Exn).

Arguments Returned {A} a.
Arguments Raised {A} e.

Definition M (A : Type) : Type := St -> Result A * St.

Definition ret {A : Type} (a : A) : M A := fun st => (Returned a, st).

Definition raise {A : Type} (e : Exn) : M A := fun st => (Raised e, st).

Definition bind {A B : Type} (m : M A) (k : A -> M B) : M B :=
  fun st =>
    match m st with
    | (Returned a, st1) => k a st1
    | (Raised e, st1) => (Raised e, st1)
    end.

(** [try: m  except ...: handler err] *)
Definition try_except {A : Type} (m : M A) (handler : Exn -> M A) : M A :=
  fun st =>
    match m st with
    | (Returned a, st1) => (Returned a, st1)
    | (Raised e, st1) => handler e st1
    end.

Definition get_self : M Device := fun st => (Returned (self st), st).

Definition modify (f : St -> St) : M unit := fun st => (Returned tt, f st).

Definition modify_self (f : Device -> Device) : M unit := modify (with_self f).

Definition LOGGER (level : Level) (msg : string) : M unit :=
  modify (emit (Logged level msg)).

Declare Scope coro_scope.
Delimit Scope coro_scope with coro.
Notation "x <- m ;; k" := (bind m (fun x => k))
  (at level 61, m at next level, right associativity) : coro_scope.
Notation "m ;; k" := (bind m (fun _ => k))
  (at level 61, right associativity) : coro_scope.
Local Open Scope coro_scope.

(** [asyncio.gather] over [tasks]: the awaiter gets the results once every
    task has returned, or the first exception as soon as a task raises; a
    raising task does not cancel its siblings, which go on running.  The
    event loop interleaves the tasks at their suspensions; here they run
    one after the other, in list order, and each to its end.  When no task
    raises the two agree up to the order of the suspensions: the two tasks
    that [async_update] gathers read and assign disjoint attributes of the
    entity.  When a task raises, the awaiter gets the same exception, but
    here the siblings have run to their end by then, which the event loop
    does not promise: what a sibling has done by the time the awaiter
    resumes is then not determined by this definition. *)
Fixpoint gather (tasks : list (M unit)) : M unit :=
  match tasks with
  | [] => ret tt
  | t :: ts =>
      fun st =>
        let (r, st1) := t st in
        let (rs, st2) := gather ts st1 in
        (match r with Raised e => Raised e | Returned _ => rs end, st2)
  end.

Section Coroutines.

Variable W : World.

(** [await c]: the entity suspends on [c]; while it is suspended the
    callbacks that the world delivers run on it; the result is the index
    under which the world answers this suspension. *)
Definition await (c : Call) : M nat :=
  fun st =>
    let n := awaits st in
    let st1 := suspend (emit (Called c (self st)) st) in
    (Returned n, deliveries (w_delivered W n) st1).

(** *** The bridge *)

Definition _bridge_async_is_on : M bool :=
  n <- await bridge_async_is_on ;; ret (w_is_on W n).

Definition _bridge_async_request_app_list : M unit :=
  _ <- await bridge_async_request_app_list ;; ret tt.

Definition _bridge_async_send_keys (keys : list string) : M unit :=
  _ <- await (bridge_async_send_keys keys) ;; ret tt.

Definition _bridge_async_launch_app (app_id : string) : M unit :=
  _ <- await (bridge_async_launch_app app_id) ;; ret tt.

Definition _bridge_async_power_off : M unit :=
  _ <- await bridge_async_power_off ;; ret tt.

(** [asyncio.wait_for(self._app_list_event.wait(), timeout)]: returns once
    the event is set, raises [TimeoutError] when the time is up first. *)
Definition wait_for_app_list (timeout : Z) : M unit :=
  _ <- await (wait_for_app_list_event timeout) ;;
  d <- get_self ;;
  if _app_list_event d then ret tt else raise TimeoutError.

(** *** The UPnP library *)

Definition async_create_device (location : string) : M UpnpDevice :=
  n <- await (upnp_factory_async_create_device location) ;;
  match w_create_device W n with
  | Some err => raise err
  | None => ret (MkUpnpDevice location)
  end.

Definition get_local_ip (location : string) : M string :=
  n <- await (async_get_local_ip location) ;; ret (w_local_ip W n).

(** Constructing an object allocates it: the new reference is the next
    free index.  References are only ever produced this way, so a lookup
    through one finds its object. *)
Definition AiohttpNotifyServer (source : string * Z) : M nat :=
  fun st =>
    (Returned (List.length (upnp_servers st)),
     with_upnp_servers
       (fun h => h ++ [{| ns_source := source; ns_running := false |}]) st).

(** The source awaits [async_start_server] and [async_stop_server]
    outside any [try]: they are taken to return. *)
Definition async_start_server (server : nat) : M unit :=
  _ <- await (upnp_server_async_start_server server) ;;
  modify
    (with_upnp_servers (fun h => list_update h server (set_running true))).

Definition async_stop_server (server : nat) : M unit :=
  _ <- await (upnp_server_async_stop_server server) ;;
  modify
    (with_upnp_servers (fun h => list_update h server (set_running false))).

Definition new_DmrDevice (device : UpnpDevice) (event_handler : nat) : M nat :=
  fun st =>
    (Returned (List.length (dmr_devices st)),
     with_dmr_devices
       (fun h => h ++ [{| dmr_device := device;
                          dmr_event_handler := event_handler;
                          on_event := false; volume_level := None;
                          is_volume_muted := None |}]) st).

Definition assign_on_event (dmr : nat) (v : bool) : M unit :=
  modify (with_dmr_devices (fun h => list_update h dmr (set_on_event v))).

Definition async_subscribe_services (dmr : nat) (auto_resubscribe : bool)
    : M unit :=
  n <- await (dmr_device_async_subscribe_services dmr auto_resubscribe) ;;
  match w_subscribe W n with
  | Some err => raise err
  | None => ret tt
  end.

Definition async_unsubscribe_services (dmr : nat) : M unit :=
  _ <- await (dmr_device_async_unsubscribe_services dmr) ;; ret tt.

Definition dmr_async_set_volume_level (dmr : nat) (volume : float) : M unit :=
  n <- await (dmr_device_async_set_volume_level dmr volume) ;;
  match w_set_volume W n with
  | Some err => raise err
  | None => ret tt
  end.

(** [cv.positive_int] *)
Definition positive_int (value : string) : M unit :=
  if cv_positive_int W value then ret tt else raise Invalid.

(** Reading [self._dmr_device] / [self._upnp_server] to use the object:
    on [None] the attribute access fails. *)
Definition the_dmr_device : M nat :=
  d <- get_self ;;
  match _dmr_device d with
  | Some r => ret r
  | None => raise AttributeError
  end.

Definition the_upnp_server : M nat :=
  d <- get_self ;;
  match _upnp_server d with
  | Some r => ret r
  | None => raise AttributeError
  end.

(** *** The entity's coroutines *)

Definition SCAN_INTERVAL_PLUS_OFF_TIME : timedelta :=
  DEFAULT_SCAN_INTERVAL W + timedelta_seconds 5.

(** [_async_startup_app_list] *)
Definition _async_startup_app_list : M unit :=
  _bridge_async_request_app_list ;;
  d <- get_self ;;
  if _app_list_event d then ret tt
  else
    try_except
      (wait_for_app_list APP_LIST_DELAY)
      (fun err =>
         if isinstance err TimeoutError then
           modify_self (set_app_list_event true) ;;
           LOGGER DEBUG "Failed to load app list from %s: %s"
         else raise err).

(** [_async_startup_dmr].  The client session, the requester and the
    factory that the source builds first are plain objects without effect
    on the entity; the factory appears as its one call. *)
Definition _async_startup_dmr : M unit :=
  d <- get_self ;;
  match _ssdp_rendering_control_location d with
  | None => raise AssertionError
  | Some location =>
    if is_some (_dmr_device d) then ret tt
    else
      upnp_device <-
        try_except
          (dev <- async_create_device location ;; ret (Some dev))
          (fun err =>
             if isinstance err UpnpConnectionError then ret None
             else raise err) ;;
      match upnp_device with
      | None => ret tt
      | Some upnp_device =>
        event_ip <- get_local_ip location ;;
        let source :=
          (if String.eqb event_ip "" then "0.0.0.0" else event_ip, 0) in
        server <- AiohttpNotifyServer source ;;
        modify_self (set_upnp_server (Some server)) ;;
        server <- the_upnp_server ;;
        async_start_server server ;;
        event_handler <- the_upnp_server ;;
        dmr <- new_DmrDevice upnp_device event_handler ;;
        modify_self (set_dmr_device (Some dmr)) ;;
        try_except
          (dmr <- the_dmr_device ;;
           assign_on_event dmr true ;;
           dmr <- the_dmr_device ;;
           async_subscribe_services dmr true)
          (fun err =>
             if isinstance err UpnpResponseError then
               LOGGER DEBUG "Device rejected subscription: %r"
             else if isinstance err UpnpError then
               dmr <- the_dmr_device ;;
               assign_on_event dmr false ;;
               modify_self (set_dmr_device None) ;;
               server <- the_upnp_server ;;
               async_stop_server server ;;
               modify_self (set_upnp_server None) ;;
               LOGGER DEBUG "Error while subscribing during device connect: %r" ;;
               raise err
             else raise err)
      end
  end.

(** [_async_shutdown_dmr] *)
Definition _async_shutdown_dmr : M unit :=
  d <- get_self ;;
  match _dmr_device d with
  | Some dmr_device =>
      modify_self (set_dmr_device None) ;;
      assign_on_event dmr_device false ;;
      async_unsubscribe_services dmr_device
  | None => ret tt
  end ;;
  d <- get_self ;;
  match _upnp_server d with
  | Some upnp_server =>
      modify_self (set_upnp_server None) ;;
      async_stop_server upnp_server
  | None => ret tt
  end.

(** [async_will_remove_from_hass] *)
Definition async_will_remove_from_hass : M unit := _async_shutdown_dmr.

(** [async_update], one polling tick at time [now]. *)
Definition async_update (now : datetime) : M unit :=
  d <- get_self ;;
  if _auth_failed d || is_stopping (hass d) then ret tt
  else
    (if _power_off_in_progress now d then
       modify_self (set_attr_state (Some STATE_OFF))
     else
       on <- _bridge_async_is_on ;;
       modify_self (set_attr_state (Some (if on then STATE_ON else STATE_OFF)))) ;;
    d <- get_self ;;
    if negb (state_eqb (_attr_state d) (Some STATE_ON)) then ret tt
    else
      let startup_tasks : list (M unit) := [] in
      let startup_tasks :=
        if negb (_app_list_event d)
        then startup_tasks ++ [_async_startup_app_list]
        else startup_tasks in
      let startup_tasks :=
        if negb (is_some (_dmr_device d))
           && truthy_str (_ssdp_rendering_control_location d)
        then startup_tasks ++ [_async_startup_dmr]
        else startup_tasks in
      match startup_tasks with
      | [] => ret tt
      | _ :: _ => gather startup_tasks
      end ;;
      modify _update_from_upnp.

(** [_async_launch_app] *)
Definition _async_launch_app (now : datetime) (app_id : string) : M unit :=
  d <- get_self ;;
  if _power_off_in_progress now d then
    LOGGER INFO "TV is powering off, not sending launch_app command"
  else if negb (is_ws_bridge (_bridge d)) then raise AssertionError
  else _bridge_async_launch_app app_id.

(** [_async_send_keys] *)
Definition _async_send_keys (now : datetime) (keys : list string) : M unit :=
  match keys with
  | [] => raise AssertionError
  | key0 :: _ =>
      d <- get_self ;;
      if _power_off_in_progress now d
         && negb (String.eqb key0 "KEY_POWEROFF")
      then LOGGER INFO "TV is powering off, not sending keys: %s"
      else _bridge_async_send_keys keys
  end.

(** [async_turn_off] *)
Definition async_turn_off (now : datetime) : M unit :=
  modify_self (set_end_of_power_off (Some (now + SCAN_INTERVAL_PLUS_OFF_TIME))) ;;
  _bridge_async_power_off.

(** [async_set_volume_level] *)
Definition async_set_volume_level (volume : float) : M unit :=
  d <- get_self ;;
  match _dmr_device d with
  | None => LOGGER INFO "Upnp services are not available on %s"
  | Some dmr_device =>
      try_except
        (dmr_async_set_volume_level dmr_device volume)
        (fun err =>
           if isinstance err UpnpActionResponseError then
             LOGGER WARNING "Unable to set volume level on %s: %s"
           else raise err)
  end.

(** [async_volume_up] *)
Definition async_volume_up (now : datetime) : M unit :=
  _async_send_keys now ["KEY_VOLUP"].

(** [async_volume_down] *)
Definition async_volume_down (now : datetime) : M unit :=
  _async_send_keys now ["KEY_VOLDOWN"].

(** [async_mute_volume] *)
Definition async_mute_volume (now : datetime) (mute : bool) : M unit :=
  _async_send_keys now ["KEY_MUTE"].

(** [async_media_play] *)
Definition async_media_play (now : datetime) : M unit :=
  modify_self (set_playing true) ;;
  _async_send_keys now ["KEY_PLAY"].

(** [async_media_pause] *)
Definition async_media_pause (now : datetime) : M unit :=
  modify_self (set_playing false) ;;
  _async_send_keys now ["KEY_PAUSE"].

(** [async_media_play_pause] *)
Definition async_media_play_pause (now : datetime) : M unit :=
  d <- get_self ;;
  if _playing d then async_media_pause now else async_media_play now.

(** [async_media_next_track] *)
Definition async_media_next_track (now : datetime) : M unit :=
  _async_send_keys now ["KEY_CHUP"].

(** [async_media_previous_track] *)
Definition async_media_previous_track (now : datetime) : M unit :=
  _async_send_keys now ["KEY_CHDOWN"].

(** [async_play_media] *)
Definition async_play_media (now : datetime) (media_type media_id : string)
    : M unit :=
  if String.eqb media_type (MEDIA_TYPE_APP W) then
    _async_launch_app now media_id
  else if negb (String.eqb media_type (MEDIA_TYPE_CHANNEL W)) then
    LOGGER ERROR "Unsupported media type"
  else
    valid <-
      try_except
        (positive_int media_id ;; ret true)
        (fun err =>
           if isinstance err Invalid then
             LOGGER ERROR "Media ID must be positive integer" ;; ret false
           else raise err) ;;
    if valid then
      _async_send_keys now
        (map (fun digit => String.append "KEY_" digit) (characters media_id)
         ++ ["KEY_ENTER"])
    else ret tt.

(** [async_turn_on] *)
Definition async_turn_on : M unit :=
  d <- get_self ;;
  match _on_script d with
  | Some on_script => _ <- await (on_script_async_run on_script) ;; ret tt
  | None =>
      if truthy_str (_mac d) then
        _ <- await hass_async_add_executor_job_wake_on_lan ;;
        modify _wake_on_lan
      else ret tt
  end.

(** [async_select_source] *)
Definition async_select_source (now : datetime) (source : string) : M unit :=
  d <- get_self ;;
  match (if truthy_dict (_app_list d)
         then match _app_list d with
              | Some app_list => dict_get app_list source
              | None => None
              end
         else None) with
  | Some app_id => _async_launch_app now app_id
  | None =>
      match dict_get SOURCES source with
      | Some key => _async_send_keys now [key]
      | None => LOGGER ERROR "Unsupported source"
      end
  end.

(** *** The entity's interface

    What the platform and the user can invoke on the entity, and what the
    collaborators can call back between two invocations. *)
Inductive Method : Type :=
| m_async_update
| m_async_will_remove_from_hass
| m_async_turn_off
| m_async_turn_on
| m_async_set_volume_level (volume : float)
| m_async_volume_up
| m_async_volume_down
| m_async_mute_volume (mute : bool)
| m_async_media_play_pause
| m_async_media_play
| m_async_media_pause
| m_async_media_next_track
| m_async_media_previous_track
| m_async_play_media (media_type media_id : string)
| m_async_select_source (source : string)
| m_callback (cb : Callback).

Definition invoke (now : datetime) (m : Method) : M unit :=
  match m with
  | m_async_update => async_update now
  | m_async_will_remove_from_hass => async_will_remove_from_hass
  | m_async_turn_off => async_turn_off now
  | m_async_turn_on => async_turn_on
  | m_async_set_volume_level volume => async_set_volume_level volume
  | m_async_volume_up => async_volume_up now
  | m_async_volume_down => async_volume_down now
  | m_async_mute_volume mute => async_mute_volume now mute
  | m_async_media_play_pause => async_media_play_pause now
  | m_async_media_play => async_media_play now
  | m_async_media_pause => async_media_pause now
  | m_async_media_next_track => async_media_next_track now
  | m_async_media_previous_track => async_media_previous_track now
  | m_async_play_media media_type media_id =>
      async_play_media now media_type media_id
  | m_async_select_source source => async_select_source now source
  | m_callback cb => modify (deliver cb)
  end.

(** A life of the entity: invocations, each at its own time, one after
    the other; an exception ends the invocation that raised it, not the
    entity. *)
Fixpoint lifetime (calls : list (datetime * Method)) (st : St) : St :=
  match calls with
  | [] => st
  | (now, m) :: rest => lifetime rest (snd (invoke now m st))
  end.

End Coroutines.

(** ** Observations on runs *)

(** The awaited calls of a log, in order. *)
Fixpoint calls_of (l : list Event) : list Call :=
  match l with
  | [] => []
  | Called c _ :: l' => c :: calls_of l'
  | _ :: l' => calls_of l'
  end.

(** The two suspensions of the app-list gate: the request to the bridge
    and the timed wait. *)
Definition is_app_list_call (c : Call) : bool :=
  match c with
  | bridge_async_request_app_list => true
  | wait_for_app_list_event _ => true
  | _ => false
  end.

(** The attributes that neither a callback nor a start-up task assigns,
    and the two references of the DMR session. *)
Definition settings (d : Device) :=
  (hass d, _host d, _mac d, _ssdp_rendering_control_location d,
   _on_script d, _playing d, _attr_state d, _end_of_power_off d, _bridge d).

Definition session (d : Device) := (_dmr_device d, _upnp_server d).

(** What the UPnP library never changes in a [DmrDevice] on its own. *)
Definition dmr_shape (o : DmrDevice) :=
  (dmr_device o, dmr_event_handler o, on_event o).

(** [undisturbed st st']: [st'] differs from [st] by callbacks only. *)
Definition undisturbed (st st' : St) : Prop :=
  settings (self st') = settings (self st)
  /\ session (self st') = session (self st)
  /\ (_app_list_event (self st) = true -> _app_list_event (self st') = true)
  /\ (_auth_failed (self st) = true -> _auth_failed (self st') = true)
  /\ map dmr_shape (dmr_devices st') = map dmr_shape (dmr_devices st)
  /\ upnp_servers st' = upnp_servers st
  /\ awaits st' = awaits st
  /\ exists evs, log st' = log st ++ evs /\ calls_of evs = [].

(** A coroutine respects a relation on states when every run of it takes
    a state to a related one, whatever it returns or raises. *)
Definition respects_at {A : Type} (R : St -> St -> Prop) (m : M A) (st : St)
    : Prop :=
  R st (snd (m st)).

Definition respects {A : Type} (R : St -> St -> Prop) (m : M A) : Prop :=
  forall st, respects_at R m st.

(** [wp m Q st]: the run of [m] from [st] ends in a result and a state
    that satisfy [Q]. *)
Definition wp {A : Type} (m : M A) (Q : Result A -> St -> Prop) (st : St)
    : Prop :=
  Q (fst (m st)) (snd (m st)).

(** The debounce deadline is left as it was. *)
Definition keeps_deadline (st st' : St) : Prop :=
  _end_of_power_off (self st') = _end_of_power_off (self st).

(** A resolved gate stays resolved. *)
Definition keeps_gate (st st' : St) : Prop :=
  _app_list_event (self st) = true -> _app_list_event (self st') = true.

(** A resolved gate stays resolved and is not asked again: what is added
    to the log holds neither suspension of the gate. *)
Definition gate_at_rest (st st' : St) : Prop :=
  _app_list_event (self st) = true ->
  _app_list_event (self st') = true
  /\ exists evs, log st' = log st ++ evs
                 /\ filter is_app_list_call (calls_of evs) = [].

(** The log only grows. *)
Definition extends_log (st st' : St) : Prop :=
  exists evs, log st' = log st ++ evs.

(** The settings are left as they were. *)
Definition keeps_settings (st st' : St) : Prop :=
  settings (self st') = settings (self st).

(** ** Scenarios *)

Definition quiet_world (is_on : bool) (subscribe : option Exn) : World :=
  {| w_delivered := fun _ => [];
     w_is_on := fun _ => is_on;
     w_create_device := fun _ => None;
     w_local_ip := fun _ => "192.168.1.10";
     w_subscribe := fun _ => subscribe;
     w_set_volume := fun _ => None;
     DEFAULT_SCAN_INTERVAL := timedelta_seconds 15;
     MEDIA_TYPE_APP := "app";
     MEDIA_TYPE_CHANNEL := "channel";
     cv_positive_int := fun _ => true |}.

Definition tv (location : option string) : Device :=
  init {| is_stopping := false |} SamsungTVWSBridge
       {| CONF_HOST := Some "192.168.1.20";
          CONF_MAC := None;
          CONF_SSDP_RENDERING_CONTROL_LOCATION := location |}
       None.

Definition dmr_location : string := "http://192.168.1.20:9197/dmr".

(** The bridge reports the TV on; nothing calls back. *)
Definition world_on : World := quiet_world true None.

(** As [world_on], and every subscription fails with a plain [UpnpError]. *)
Definition world_subscribe_fails : World := quiet_world true (Some UpnpError).

(** A fresh entity whose first command, at time 0, is [async_turn_off]:
    the deadline is 20 s. *)
Definition st_turned_off : St :=
  snd (async_turn_off world_on 0 (boot (tv None))).

(** A fresh entity after its first tick, during which the TV did not
    answer the app-list request: the gate is resolved by the timeout. *)
Definition st_gate_timed_out : St :=
  snd (async_update world_on 0 (boot (tv None))).

(** A tick finds the TV on; one second later it is turned off; one second
    later the bridge reports that access is denied. *)
Definition st_denied_while_powering_off : St :=
  lifetime world_on
    [(0, m_async_update);
     (timedelta_seconds 1, m_async_turn_off);
     (timedelta_seconds 2, m_callback reauth_required)]
    (boot (tv None)).

(** The commands that send keys or launch an app. *)
Definition sends_keys_or_launches (m : Method) : bool :=
  match m with
  | m_async_volume_up | m_async_volume_down | m_async_mute_volume _
  | m_async_media_play_pause | m_async_media_play | m_async_media_pause
  | m_async_media_next_track | m_async_media_previous_track
  | m_async_play_media _ _ | m_async_select_source _ => true
  | _ => false
  end.

(** ** Further observations *)

(** The auth-failure flag, once set, stays set. *)
Definition keeps_auth_failed (st st' : St) : Prop :=
  _auth_failed (self st) = true -> _auth_failed (self st') = true.

(** The source list is the built-in sources followed by the names of the
    stored app list. *)
Definition sources_in_step (d : Device) : Prop :=
  _attr_source_list d =
  dict_keys SOURCES
  ++ match _app_list d with Some app_list => dict_keys app_list | None => [] end.

Definition keeps_sources (st st' : St) : Prop :=
  sources_in_step (self st) -> sources_in_step (self st').

(** The app id that [async_select_source] finds for a source name. *)
Definition app_id_of (d : Device) (source : string) : option string :=
  match _app_list d with
  | Some app_list => dict_get app_list source
  | None => None
  end.

(** The DMR device and the notify server are referenced together or not
    at all. *)
Definition session_whole (d : Device) : Prop :=
  is_some (_dmr_device d) = is_some (_upnp_server d).

Definition keeps_session_whole (st st' : St) : Prop :=
  session_whole (self st) -> session_whole (self st').

(** The magic packets sent, in order. *)
Definition magic_packets_of (l : list Event) : list Effect :=
  flat_map (fun ev => match ev with
                      | Did (send_magic_packet mac ip_address) =>
                          [send_magic_packet mac ip_address]
                      | _ => []
                      end) l.

(** The bridge reports the TV off. *)
Definition world_off : World := quiet_world false None.

(** The TV rejects every subscription. *)
Definition world_rejects : World := quiet_world true (Some UpnpResponseError).

(** The rendering-control location cannot be reached. *)
Definition world_unreachable : World :=
  {| w_delivered := fun _ => [];
     w_is_on := fun _ => true;
     w_create_device := fun _ => Some UpnpConnectionError;
     w_local_ip := fun _ => "192.168.1.10";
     w_subscribe := fun _ => None;
     w_set_volume := fun _ => None;
     DEFAULT_SCAN_INTERVAL := timedelta_seconds 15;
     MEDIA_TYPE_APP := "app";
     MEDIA_TYPE_CHANNEL := "channel";
     cv_positive_int := fun _ => true |}.

(** A fresh entity with a rendering-control location, after a DMR
    start-up that went through. *)
Definition st_connected : St :=
  snd (_async_startup_dmr world_on (boot (tv (Some dmr_location)))).

(** A fresh entity to which the bridge reported that access is denied. *)
Definition st_denied : St := deliver reauth_required (boot (tv None)).

(** A fresh entity with a MAC address and no turn-on script. *)
Definition tv_with_mac : Device :=
  init {| is_stopping := false |} SamsungTVWSBridge
       {| CONF_HOST := Some "192.168.1.20";
          CONF_MAC := Some "aa:bb:cc:dd:ee:ff";
          CONF_SSDP_RENDERING_CONTROL_LOCATION := None |}
       None.

(** As [world_on], and the bridge delivers an app list during the first
    suspension. *)
Definition world_delivers_apps : World :=
  {| w_delivered :=
       fun n => match n with
                | O => [app_list_received [("Netflix", "11101200001")]]
                | S _ => []
                end;
     w_is_on := fun _ => true;
     w_create_device := fun _ => None;
     w_local_ip := fun _ => "192.168.1.10";
     w_subscribe := fun _ => None;
     w_set_volume := fun _ => None;
     DEFAULT_SCAN_INTERVAL := timedelta_seconds 15;
     MEDIA_TYPE_APP := "app";
     MEDIA_TYPE_CHANNEL := "channel";
     cv_positive_int := fun _ => true |}.

(** The app list has arrived: it is stored and the event is set. *)
Definition app_list_known (d : Device) : Prop :=
  _app_list_event d = true /\ _app_list d <> None.

(** A fresh entity with a rendering-control location after its first
    tick: the app-list event is set and the DMR session is open. *)
Definition st_first_tick : St :=
  snd (async_update world_on 0 (boot (tv (Some dmr_location)))).

(** * Proofs *)

(** ** Callbacks leave a state undisturbed *)

Lemma calls_of_app (l1 l2 : list Event) :
  calls_of (l1 ++ l2) = calls_of l1 ++ calls_of l2.
Proof.
  induction l1 as [|e l1 IH]; simpl; [reflexivity|].
  destruct e; simpl; rewrite IH; reflexivity.
Qed.

Lemma map_list_update_same {A B : Type} (g : A -> B) (f : A -> A)
    (l : list A) (i : nat) :
  (forall x, g (f x) = g x) ->
  map g (list_update l i f) = map g l.
Proof.
  intros Hg. revert i.
  induction l as [|x l IH]; intros [|i]; simpl; try reflexivity.
  - now rewrite Hg.
  - now rewrite IH.
Qed.

Lemma undisturbed_refl (st : St) : undisturbed st st.
Proof.
  unfold undisturbed. repeat apply conj; auto.
  exists []. split; [now rewrite app_nil_r | reflexivity].
Qed.

Lemma undisturbed_trans (st1 st2 st3 : St) :
  undisturbed st1 st2 -> undisturbed st2 st3 -> undisturbed st1 st3.
Proof.
  intros (A1 & A2 & A3 & A4 & A5 & A6 & A7 & ev1 & A8 & A9)
         (B1 & B2 & B3 & B4 & B5 & B6 & B7 & ev2 & B8 & B9).
  unfold undisturbed. repeat apply conj; try congruence; auto.
  exists (ev1 ++ ev2). split.
  - rewrite B8, A8, app_assoc. reflexivity.
  - rewrite calls_of_app, A9, B9. reflexivity.
Qed.

Lemma undisturbed_emit (e : Event) (st : St) :
  calls_of [e] = [] -> undisturbed st (emit e st).
Proof.
  intros He. unfold undisturbed. simpl. repeat apply conj; auto.
  exists [e]. split; [reflexivity | exact He].
Qed.

Lemma update_sources_fields (d : Device) :
  settings (_update_sources d) = settings d
  /\ session (_update_sources d) = session d
  /\ _app_list (_update_sources d) = _app_list d
  /\ _app_list_event (_update_sources d) = _app_list_event d
  /\ _auth_failed (_update_sources d) = _auth_failed d.
Proof.
  unfold _update_sources. simpl.
  destruct (_app_list d) as [[|p l]|] eqn:E; simpl;
    repeat apply conj; auto.
Qed.

Lemma update_from_upnp_undisturbed (st : St) :
  undisturbed st (_update_from_upnp st).
Proof.
  unfold _update_from_upnp.
  destruct (_dmr_device (self st)) as [r|]; [|apply undisturbed_refl].
  destruct (nth_error (dmr_devices st) r) as [o|]; [|apply undisturbed_refl].
  destruct (volume_level o), (is_volume_muted o);
    unfold undisturbed; simpl; repeat apply conj; auto;
    exists []; rewrite app_nil_r; split; reflexivity.
Qed.

Lemma deliver_undisturbed (cb : Callback) (st : St) :
  undisturbed st (deliver cb st).
Proof.
  destruct cb as [app_list| |r volume muted]; simpl.
  - destruct (update_sources_fields (set_app_list (Some app_list) (self st)))
      as (E1 & E2 & _ & _ & E5).
    unfold undisturbed, _app_list_callback. simpl.
    repeat apply conj; auto.
    + intros H. rewrite E5. exact H.
    + exists []. rewrite app_nil_r. split; reflexivity.
  - unfold access_denied, undisturbed. simpl. repeat apply conj; auto.
    eexists. rewrite <- app_assoc. split; reflexivity.
  - set (st1 := with_dmr_devices _ st).
    assert (U1 : undisturbed st st1).
    { unfold undisturbed, st1. simpl. repeat apply conj; auto.
      - apply map_list_update_same. intros o. reflexivity.
      - exists []. rewrite app_nil_r. split; reflexivity. }
    destruct (nth_error _ r) as [o|]; [|exact U1].
    destruct (on_event o); [|exact U1].
    eapply undisturbed_trans; [exact U1|].
    unfold _on_upnp_event.
    eapply undisturbed_trans; [apply update_from_upnp_undisturbed|].
    apply undisturbed_emit. reflexivity.
Qed.

Lemma deliveries_undisturbed (cbs : list Callback) (st : St) :
  undisturbed st (deliveries cbs st).
Proof.
  unfold deliveries. revert st.
  induction cbs as [|cb cbs IH]; intros st; simpl.
  - apply undisturbed_refl.
  - eapply undisturbed_trans; [apply deliver_undisturbed | apply IH].
Qed.

(** ** Relations that every step of a coroutine respects *)

Section Respects.

Variable R : St -> St -> Prop.
Hypothesis R_refl : forall st, R st st.
Hypothesis R_trans : forall st1 st2 st3, R st1 st2 -> R st2 st3 -> R st1 st3.

Lemma respects_at_ret {A : Type} (a : A) (st : St) : respects_at R (ret a) st.
Proof. apply R_refl. Qed.

Lemma respects_at_raise {A : Type} (e : Exn) (st : St) :
  respects_at R (@raise A e) st.
Proof. apply R_refl. Qed.

Lemma respects_at_get_self (st : St) : respects_at R get_self st.
Proof. apply R_refl. Qed.

Lemma respects_at_bind {A B : Type} (m : M A) (k : A -> M B) (st : St) :
  respects_at R m st ->
  (forall a, respects R (k a)) ->
  respects_at R (bind m k) st.
Proof.
  unfold respects, respects_at, bind. intros Hm Hk.
  destruct (m st) as [[a|e] st1]; simpl in *.
  - eapply R_trans; [exact Hm | apply Hk].
  - exact Hm.
Qed.

Lemma respects_at_read {B : Type} (k : Device -> M B) (st : St) :
  respects_at R (k (self st)) st ->
  respects_at R (bind get_self k) st.
Proof. intros H. exact H. Qed.

Lemma respects_at_try {A : Type} (m : M A) (h : Exn -> M A) (st : St) :
  respects_at R m st ->
  (forall e, respects R (h e)) ->
  respects_at R (try_except m h) st.
Proof.
  unfold respects, respects_at, try_except. intros Hm Hh.
  destruct (m st) as [[a|e] st1]; simpl in *.
  - exact Hm.
  - eapply R_trans; [exact Hm | apply Hh].
Qed.

Lemma respects_gather (tasks : list (M unit)) :
  Forall (respects R) tasks -> respects R (gather tasks).
Proof.
  induction 1 as [|t ts Ht _ IH]; intros st; unfold respects_at; simpl.
  - apply R_refl.
  - specialize (Ht st). unfold respects_at in Ht.
    destruct (t st) as [r st1]. simpl in Ht.
    specialize (IH st1). unfold respects_at in IH.
    destruct (gather ts st1) as [rs st2]. simpl in *.
    eapply R_trans; eassumption.
Qed.

Lemma respects_at_modify (f : St -> St) (st : St) :
  R st (f st) -> respects_at R (modify f) st.
Proof. intros H. exact H. Qed.

Lemma respects_at_await (W : World) (c : Call) (st : St) :
  R st (suspend (emit (Called c (self st)) st)) ->
  (forall st1 st2, undisturbed st1 st2 -> R st1 st2) ->
  respects_at R (await W c) st.
Proof.
  intros H1 H2. unfold respects_at, await. simpl.
  eapply R_trans; [exact H1|].
  apply H2, deliveries_undisturbed.
Qed.

End Respects.

Create HintDb preorder.

Ltac head_of t :=
  lazymatch t with
  | ?f _ => head_of f
  | _ => t
  end.

(** Takes a goal [respects R m] apart along the structure of [m]; what is
    left are the assignments and the suspensions. *)
Ltac respect_step :=
  lazymatch goal with
  | |- respects _ _ => intros ?st
  | |- respects_at _ (bind get_self _) _ => apply respects_at_read
  | |- respects_at _ (bind _ _) _ => apply respects_at_bind; [ | | intros ? ]
  | |- respects_at _ (try_except _ _) _ => apply respects_at_try; [ | | intros ? ]
  | |- respects_at _ (ret _) _ => apply respects_at_ret
  | |- respects_at _ (raise _) _ => apply respects_at_raise
  | |- respects_at _ get_self _ => apply respects_at_get_self
  | |- respects_at _ (modify _) _ => apply respects_at_modify
  | |- respects_at _ (await _ _) _ => apply respects_at_await
  | |- respects_at _ (AiohttpNotifyServer _) _ => unfold respects_at; simpl
  | |- respects_at _ (new_DmrDevice _ _) _ => unfold respects_at; simpl
  | |- respects_at _ (gather _) _ =>
      apply respects_gather; [ | | repeat apply Forall_cons; try apply Forall_nil ]
  | |- respects_at _ (match ?x with _ => _ end) _ =>
      lazymatch x with
      | context [_async_startup_dmr] => fail
      | _ => destruct x eqn:?
      end
  | |- respects_at _ ?m _ => let h := head_of m in unfold h
  end;
  try solve [intros; eauto 3 with preorder].

(** The start-up tasks of a tick, by cases on the two tests that select
    them. *)
Ltac respect_startup_tasks :=
  lazymatch goal with
  | |- respects_at _ ?m ?st =>
      lazymatch m with
      | context [_app_list_event ?d] =>
          cbv zeta;
          destruct (_app_list_event d) eqn:?;
          destruct (is_some (_dmr_device d)) eqn:?;
          destruct (truthy_str (_ssdp_rendering_control_location d)) eqn:?;
          cbn [negb andb app]
      end
  end.

(** ** The four relations *)

Lemma keeps_gate_refl (st : St) : keeps_gate st st.
Proof. unfold keeps_gate. auto. Qed.

Lemma keeps_gate_trans (st1 st2 st3 : St) :
  keeps_gate st1 st2 -> keeps_gate st2 st3 -> keeps_gate st1 st3.
Proof. unfold keeps_gate. auto. Qed.

Lemma keeps_gate_undisturbed (st1 st2 : St) :
  undisturbed st1 st2 -> keeps_gate st1 st2.
Proof. intros (_ & _ & H & _). exact H. Qed.

Lemma keeps_deadline_refl (st : St) : keeps_deadline st st.
Proof. reflexivity. Qed.

Lemma keeps_deadline_trans (st1 st2 st3 : St) :
  keeps_deadline st1 st2 -> keeps_deadline st2 st3 -> keeps_deadline st1 st3.
Proof. unfold keeps_deadline. congruence. Qed.

Lemma keeps_deadline_undisturbed (st1 st2 : St) :
  undisturbed st1 st2 -> keeps_deadline st1 st2.
Proof.
  intros (H & _). unfold keeps_deadline, settings in *. congruence.
Qed.

Lemma keeps_settings_refl (st : St) : keeps_settings st st.
Proof. reflexivity. Qed.

Lemma keeps_settings_trans (st1 st2 st3 : St) :
  keeps_settings st1 st2 -> keeps_settings st2 st3 -> keeps_settings st1 st3.
Proof. unfold keeps_settings. congruence. Qed.

Lemma keeps_settings_undisturbed (st1 st2 : St) :
  undisturbed st1 st2 -> keeps_settings st1 st2.
Proof. intros (H & _). exact H. Qed.

Lemma extends_log_refl (st : St) : extends_log st st.
Proof. exists []. now rewrite app_nil_r. Qed.

Lemma extends_log_trans (st1 st2 st3 : St) :
  extends_log st1 st2 -> extends_log st2 st3 -> extends_log st1 st3.
Proof.
  intros [evs1 L1] [evs2 L2]. exists (evs1 ++ evs2).
  rewrite L2, L1, app_assoc. reflexivity.
Qed.

Lemma extends_log_undisturbed (st1 st2 : St) :
  undisturbed st1 st2 -> extends_log st1 st2.
Proof.
  intros (_ & _ & _ & _ & _ & _ & _ & evs & L & _). exists evs. exact L.
Qed.

Lemma gate_at_rest_refl (st : St) : gate_at_rest st st.
Proof.
  intros H. split; [exact H|].
  exists []. split; [now rewrite app_nil_r | reflexivity].
Qed.

Lemma gate_at_rest_trans (st1 st2 st3 : St) :
  gate_at_rest st1 st2 -> gate_at_rest st2 st3 -> gate_at_rest st1 st3.
Proof.
  unfold gate_at_rest. intros H12 H23 H1.
  destruct (H12 H1) as (H2 & evs1 & L1 & F1).
  destruct (H23 H2) as (H3 & evs2 & L2 & F2).
  split; [exact H3|].
  exists (evs1 ++ evs2). split.
  - rewrite L2, L1, app_assoc. reflexivity.
  - rewrite calls_of_app, filter_app, F1, F2. reflexivity.
Qed.

Lemma gate_at_rest_quiet (st st' : St) :
  (_app_list_event (self st) = true -> _app_list_event (self st') = true) ->
  (exists evs, log st' = log st ++ evs /\ calls_of evs = []) ->
  gate_at_rest st st'.
Proof.
  intros Hg (evs & L & C) H. split; [auto|].
  exists evs. split; [exact L|]. rewrite C. reflexivity.
Qed.

Lemma gate_at_rest_undisturbed (st1 st2 : St) :
  undisturbed st1 st2 -> gate_at_rest st1 st2.
Proof.
  intros (_ & _ & H & _ & _ & _ & _ & Hlog).
  apply gate_at_rest_quiet; assumption.
Qed.

Lemma gate_at_rest_call (c : Call) (d : Device) (st : St) :
  is_app_list_call c = false ->
  gate_at_rest st (suspend (emit (Called c d) st)).
Proof.
  intros Hc H1. split; [exact H1|].
  exists [Called c d]. split; [reflexivity|].
  simpl. rewrite Hc. reflexivity.
Qed.

Lemma gate_at_rest_open (st st' : St) :
  _app_list_event (self st) = false -> gate_at_rest st st'.
Proof. unfold gate_at_rest. congruence. Qed.

#[export] Hint Resolve
  keeps_gate_refl keeps_gate_trans keeps_gate_undisturbed
  keeps_deadline_refl keeps_deadline_trans keeps_deadline_undisturbed
  keeps_settings_refl keeps_settings_trans keeps_settings_undisturbed
  gate_at_rest_refl gate_at_rest_trans gate_at_rest_undisturbed
  extends_log_refl extends_log_trans extends_log_undisturbed : preorder.

(** What is left of a goal [respects R m] once [m] is taken apart: an
    assignment, a log entry, a callback or a suspension. *)
Ltac respect_leaf :=
  try solve
    [ apply gate_at_rest_call; reflexivity
    | apply gate_at_rest_open; assumption
    | apply gate_at_rest_undisturbed;
      first [ apply update_from_upnp_undisturbed
            | apply undisturbed_emit; reflexivity ]
    | apply gate_at_rest_quiet;
      [ simpl; auto
      | exists []; simpl; rewrite app_nil_r; split; reflexivity ]
    | first [ apply keeps_gate_undisturbed
            | apply keeps_deadline_undisturbed
            | apply keeps_settings_undisturbed
            | apply extends_log_undisturbed ];
      first [ apply deliver_undisturbed
            | apply update_from_upnp_undisturbed ]
    | unfold extends_log; simpl;
      first [ exists []; rewrite app_nil_r; reflexivity
            | eexists; reflexivity ]
    | unfold keeps_gate, keeps_deadline, keeps_settings;
      simpl; auto ].

Ltac respect := repeat respect_step; respect_leaf.

(** ** A resolved gate stays resolved *)

Lemma invoke_keeps_gate (W : World) (now : datetime)
    (m : Method) :
  respects keeps_gate (invoke W now m).
Proof.
  destruct m; unfold invoke; respect.
  respect_startup_tasks; respect.
Qed.

Lemma lifetime_keeps_gate (W : World) (calls : list (datetime * Method))
    (st : St) :
  keeps_gate st (lifetime W calls st).
Proof.
  revert st. induction calls as [|[now m] calls IH]; intros st; simpl.
  - apply keeps_gate_refl.
  - eapply keeps_gate_trans; [apply invoke_keeps_gate | apply IH].
Qed.

(** ** A tick leaves the deadline alone and a resolved gate at rest *)

Lemma async_update_keeps_deadline (W : World) (now : datetime) :
  respects keeps_deadline (async_update W now).
Proof.
  unfold async_update; respect.
  respect_startup_tasks; respect.
Qed.

Lemma async_update_gate_at_rest (W : World) (now : datetime) :
  respects gate_at_rest (async_update W now).
Proof.
  unfold async_update; respect.
  respect_startup_tasks;
    try (unfold respects_at; apply gate_at_rest_open; assumption);
    respect.
Qed.

Lemma respects_wp {A : Type} (R : St -> St -> Prop) (m : M A) (st : St) :
  respects R m -> wp m (fun _ st' => R st st') st.
Proof. intros H. apply H. Qed.

(** ** Running a coroutine step by step *)

Lemma wp_ret {A : Type} (a : A) (Q : Result A -> St -> Prop) (st : St) :
  Q (Returned a) st -> wp (ret a) Q st.
Proof. intros H. exact H. Qed.

Lemma wp_raise {A : Type} (e : Exn) (Q : Result A -> St -> Prop) (st : St) :
  Q (Raised e) st -> wp (raise e) Q st.
Proof. intros H. exact H. Qed.

Lemma wp_get_self (Q : Result Device -> St -> Prop) (st : St) :
  Q (Returned (self st)) st -> wp get_self Q st.
Proof. intros H. exact H. Qed.

Lemma wp_modify (f : St -> St) (Q : Result unit -> St -> Prop) (st : St) :
  Q (Returned tt) (f st) -> wp (modify f) Q st.
Proof. intros H. exact H. Qed.

Lemma wp_bind {A B : Type} (m : M A) (k : A -> M B)
    (Q : Result B -> St -> Prop) (st : St) :
  wp m (fun r st1 =>
          match r with
          | Returned a => wp (k a) Q st1
          | Raised e => Q (Raised e) st1
          end) st ->
  wp (bind m k) Q st.
Proof.
  unfold wp, bind. destruct (m st) as [[a|e] st1]; simpl; auto.
Qed.

Lemma wp_try {A : Type} (m : M A) (h : Exn -> M A)
    (Q : Result A -> St -> Prop) (st : St) :
  wp m (fun r st1 =>
          match r with
          | Returned a => Q (Returned a) st1
          | Raised e => wp (h e) Q st1
          end) st ->
  wp (try_except m h) Q st.
Proof.
  unfold wp, try_except. destruct (m st) as [[a|e] st1]; simpl; auto.
Qed.

Lemma wp_await (W : World) (c : Call) (Q : Result nat -> St -> Prop)
    (st : St) :
  (forall st',
      undisturbed (suspend (emit (Called c (self st)) st)) st' ->
      Q (Returned (awaits st)) st') ->
  wp (await W c) Q st.
Proof.
  intros H. unfold wp, await. simpl. apply H, deliveries_undisturbed.
Qed.

Lemma wp_AiohttpNotifyServer (source : string * Z)
    (Q : Result nat -> St -> Prop) (st : St) :
  Q (Returned (List.length (upnp_servers st)))
    (with_upnp_servers
       (fun h => h ++ [{| ns_source := source; ns_running := false |}]) st) ->
  wp (AiohttpNotifyServer source) Q st.
Proof. intros H. exact H. Qed.

Lemma wp_new_DmrDevice (device : UpnpDevice) (event_handler : nat)
    (Q : Result nat -> St -> Prop) (st : St) :
  Q (Returned (List.length (dmr_devices st)))
    (with_dmr_devices
       (fun h => h ++ [{| dmr_device := device;
                          dmr_event_handler := event_handler;
                          on_event := false; volume_level := None;
                          is_volume_muted := None |}]) st) ->
  wp (new_DmrDevice device event_handler) Q st.
Proof. intros H. exact H. Qed.

Lemma wp_gather_cons (t : M unit) (ts : list (M unit))
    (Q : Result unit -> St -> Prop) (st : St) :
  wp t (fun r st1 =>
          wp (gather ts)
             (fun rs st2 =>
                Q (match r with Raised e => Raised e | Returned _ => rs end)
                  st2) st1) st ->
  wp (gather (t :: ts)) Q st.
Proof.
  unfold wp. simpl. destruct (t st) as [r st1]. simpl.
  destruct (gather ts st1) as [rs st2]. simpl. auto.
Qed.

Lemma wp_consequence {A : Type} (m : M A) (Q Q' : Result A -> St -> Prop)
    (st : St) :
  wp m Q st -> (forall r st', Q r st' -> Q' r st') -> wp m Q' st.
Proof. unfold wp. auto. Qed.

(** Reads attributes through assignments. *)
Ltac fields :=
  cbn [hass _host _mac _ssdp_rendering_control_location _on_script _playing
       _attr_state _attr_is_volume_muted _attr_volume_level _attr_source_list
       _app_list _app_list_event _end_of_power_off _bridge _auth_failed
       _dmr_device _upnp_server
       set_playing set_attr_state set_attr_is_volume_muted
       set_attr_volume_level set_attr_source_list set_app_list
       set_app_list_event set_end_of_power_off set_auth_failed
       set_dmr_device set_upnp_server
       fst snd self dmr_devices upnp_servers log awaits
       with_self with_dmr_devices with_upnp_servers emit suspend].

(** Splits what a suspension leaves known about the state after it. *)
Ltac absorb U :=
  let Hset := fresh "Hset" in
  let Hses := fresh "Hses" in
  let Hgate := fresh "Hgate" in
  let Hauth := fresh "Hauth" in
  let Hdmrs := fresh "Hdmrs" in
  let Hsrvs := fresh "Hsrvs" in
  let Haw := fresh "Haw" in
  let evs := fresh "evs" in
  let Hlog := fresh "Hlog" in
  let Hcalls := fresh "Hcalls" in
  destruct U as (Hset & Hses & Hgate & Hauth & Hdmrs & Hsrvs & Haw
                 & evs & Hlog & Hcalls);
  unfold settings in Hset; unfold session in Hses;
  cbn in Hset, Hses, Hgate, Hauth, Hdmrs, Hsrvs, Haw, Hlog;
  injection Hset as ? ? ? ? ? ? ? ? ?;
  injection Hses as ? ?.

Ltac wp_step :=
  lazymatch goal with
  | |- wp (bind _ _) _ _ => apply wp_bind
  | |- wp (try_except _ _) _ _ => apply wp_try
  | |- wp (ret _) _ _ => apply wp_ret
  | |- wp (raise _) _ _ => apply wp_raise
  | |- wp get_self _ _ => apply wp_get_self
  | |- wp (modify _) _ _ => apply wp_modify
  | |- wp (await _ _) _ _ =>
      let st' := fresh "st" in
      let U := fresh "U" in
      apply wp_await; intros st' U; absorb U
  | |- wp (AiohttpNotifyServer _) _ _ => apply wp_AiohttpNotifyServer
  | |- wp (new_DmrDevice _ _) _ _ => apply wp_new_DmrDevice
  | |- wp (gather (_ :: _)) _ _ => apply wp_gather_cons
  | |- wp (gather []) _ _ => apply wp_ret
  | |- wp (match _ with _ => _ end) _ _ => fail
  | |- wp ?m _ _ => let h := head_of m in unfold h
  end;
  cbn beta iota;
  fields.

(** Decides a test of the coroutine from what is known of the state. *)
Ltac wp_known :=
  lazymatch goal with
  | |- wp (match ?x with _ => _ end) _ _ =>
      fields;
      repeat match goal with
             | H : ?l = _ |- _ =>
                 lazymatch x with context [l] => rewrite H end
             end;
      cbn beta iota;
      cbn [is_some negb andb orb]
  end.

Ltac wp_run := repeat first [wp_step | progress wp_known].

Lemma list_update_last {A : Type} (f : A -> A) (l : list A) (x : A) :
  list_update (l ++ [x]) (List.length l) f = l ++ [f x].
Proof.
  induction l as [|y l IH]; simpl; [reflexivity | now rewrite IH].
Qed.

Lemma map_list_update {A B : Type} (g : A -> B) (f : A -> A) (f' : B -> B)
    (l : list A) (i : nat) :
  (forall x, g (f x) = f' (g x)) ->
  map g (list_update l i f) = list_update (map g l) i f'.
Proof.
  intros Hg. revert i.
  induction l as [|x l IH]; intros [|i]; simpl; try reflexivity.
  - now rewrite Hg.
  - now rewrite IH.
Qed.

(** Follows the state back through the suspensions of a run. *)
Ltac trace_back :=
  repeat match goal with
         | H : upnp_servers _ = _ |- _ => rewrite H
         | H : awaits _ = _ |- _ => rewrite H
         | H : log _ = _ |- _ => rewrite H
         | H : calls_of _ = _ |- _ => rewrite H
         | |- context [calls_of (_ ++ _)] => rewrite calls_of_app
         end.

Lemma startup_dmr_unwinds (W : World) (st : St) (location : string) (e : Exn) :
  _ssdp_rendering_control_location (self st) = Some location ->
  _dmr_device (self st) = None ->
  w_create_device W (awaits st) = None ->
  w_subscribe W (awaits st + 3) = Some e ->
  isinstance e UpnpError = true ->
  isinstance e UpnpResponseError = false ->
  wp (_async_startup_dmr W)
     (fun r st' =>
        r = Raised e
        /\ session (self st') = (None, None)
        /\ settings (self st') = settings (self st)
        /\ map dmr_shape (dmr_devices st') =
           map dmr_shape (dmr_devices st)
           ++ [(MkUpnpDevice location, List.length (upnp_servers st), false)]
        /\ map ns_running (upnp_servers st') =
           map ns_running (upnp_servers st) ++ [false]
        /\ calls_of (log st') =
           calls_of (log st)
           ++ [upnp_factory_async_create_device location;
               async_get_local_ip location;
               upnp_server_async_start_server (List.length (upnp_servers st));
               dmr_device_async_subscribe_services
                 (List.length (dmr_devices st)) true;
               upnp_server_async_stop_server (List.length (upnp_servers st))]
        /\ exists seen,
             In (Called (upnp_server_async_stop_server
                           (List.length (upnp_servers st))) seen)
                (log st')
             /\ _dmr_device seen = None
             /\ _upnp_server seen = Some (List.length (upnp_servers st)))
     st.
Proof.
  intros Hloc Hdmr Hcreate Hsub He1 He2.
  replace (awaits st + 3)%nat with (S (S (S (awaits st)))) in Hsub by lia.
  unfold _async_startup_dmr.
  wp_run.
  split; [reflexivity|].
  split; [unfold session; fields; congruence|].
  split; [unfold settings; fields; congruence|].
  split; [|split; [|split]].
  - rewrite Hdmrs3.
    rewrite (map_list_update dmr_shape (set_on_event false)
                   (fun s => (fst s, false))) by reflexivity.
    rewrite Hdmrs2, list_update_last, map_app.
    rewrite <- (length_map dmr_shape (dmr_devices st2)).
    cbn [map]. rewrite list_update_last.
    rewrite Hdmrs1, Hdmrs0, Hdmrs.
    trace_back. reflexivity.
  - trace_back.
    rewrite !list_update_last, map_app. reflexivity.
  - trace_back. simpl.
    assert (Hlen : List.length (dmr_devices st2) = List.length (dmr_devices st)).
    { rewrite <- (length_map dmr_shape (dmr_devices st2)),
              <- (length_map dmr_shape (dmr_devices st)).
      congruence. }
    rewrite Hlen, <- !app_assoc. reflexivity.
  - exists (set_dmr_device None (self st3)).
    split; [|split; [reflexivity|]].
    2: { simpl. rewrite H42, H31, Hsrvs0, Hsrvs. reflexivity. }
    rewrite Hlog3, <- Hsrvs, <- Hsrvs0.
    apply in_or_app. left. apply in_or_app. left. apply in_or_app. right.
    left. reflexivity.
Qed.

(** Equalities between attributes, from what the suspensions left known. *)
Ltac same_fields :=
  unfold settings, session; fields;
  repeat match goal with H : _ -> _ |- _ => clear H end;
  repeat apply conj; congruence.

(** Decides a test on literals, or else takes both of its branches. *)
Ltac wp_cases :=
  lazymatch goal with
  | |- wp (match ?x with _ => _ end) _ _ =>
      first
        [ progress
            cbn [String.eqb Ascii.eqb Bool.eqb negb andb orb
                 dict_get SOURCES String.append map app isinstance]
        | lazymatch x with
          | context [if ?c then _ else _] => destruct c eqn:?
          | context [match ?y with _ => _ end] => destruct y eqn:?
          | _ => destruct x eqn:?
          end ]
  end.

Ltac wp_all := repeat first [wp_step | progress wp_known | wp_cases].

(** ** The app-list gate always settles *)

Lemma startup_app_list_settles (W : World) (st : St) :
  wp (_async_startup_app_list W)
     (fun r st' =>
        r = Returned tt
        /\ settings (self st') = settings (self st)
        /\ session (self st') = session (self st)
        /\ _app_list_event (self st') = true)
     st.
Proof.
  unfold _async_startup_app_list.
  wp_run.
  destruct (_app_list_event (self st0)) eqn:Hev; wp_run.
  - same_fields.
  - destruct (_app_list_event (self st1)) eqn:Hev1; wp_run.
    + same_fields.
    + cbn [isinstance]. wp_run. same_fields.
Qed.

(** ** The characters of a string *)

Lemma characters_shape (s : string) :
  Forall (fun ch =>
            exists c k,
              ch = String c k
              /\ forallb is_continuation (list_ascii_of_string k) = true)
         (characters s).
Proof.
  induction s as [|c s IH]; simpl.
  - constructor.
  - destruct (characters s) as [|ch chs].
    + constructor; [exists c, ""; split; reflexivity | constructor].
    + inversion IH as [|? ? (c' & k' & -> & Hk) Hchs]; subst. simpl.
      destruct (is_continuation c') eqn:Hc.
      * constructor; [|assumption].
        exists c, (String c' k'). split; [reflexivity|].
        simpl. rewrite Hc. exact Hk.
      * constructor; [exists c, ""; split; reflexivity|].
        constructor; [|assumption]. exists c', k'. auto.
Qed.

(** No key made of one character is KEY_POWEROFF. *)
Lemma character_key_not_poweroff (s ch : string) (chs : list string) :
  characters s = ch :: chs ->
  String.eqb (String.append "KEY_" ch) "KEY_POWEROFF" = false.
Proof.
  intros E. pose proof (characters_shape s) as H. rewrite E in H.
  inversion H as [|? ? (c & k & -> & Hk) _]; subst.
  simpl. destruct (Ascii.eqb c "P"); [|reflexivity].
  destruct k as [|c2 k2]; [reflexivity|].
  simpl in *. destruct (Ascii.eqb_spec c2 "O") as [->|]; [|reflexivity].
  discriminate Hk.
Qed.

(** ** Commands while the TV is powering off *)

Lemma command_suppressed (W : World) (now t : datetime)
    (st : St) (m : Method) :
  _end_of_power_off (self st) = Some t ->
  now < t ->
  sends_keys_or_launches m = true ->
  wp (invoke W now m)
     (fun _ st' => calls_of (log st') = calls_of (log st)) st.
Proof.
  intros Hend Hlt Hm.
  apply Z.gtb_lt in Hlt.
  destruct m; try discriminate Hm; clear Hm;
    unfold invoke, async_volume_up, async_volume_down, async_mute_volume,
      async_media_play_pause, async_media_play, async_media_pause,
      async_media_next_track, async_media_previous_track,
      async_play_media, async_select_source,
      _async_send_keys, _async_launch_app, _power_off_in_progress.
  9: destruct (characters media_id) as [|digit digits] eqn:Hchars.
  10: cbn [map app hd]; rewrite (character_key_not_poweroff _ _ _ Hchars).
  all: wp_all.
  all: try (rewrite calls_of_app; simpl; apply app_nil_r).
  all: reflexivity.
Qed.

(** * The properties *)

(** ** The power-off debounce in the polling tick *)

(** C1, as amended.  In a tick whose debounce deadline [_end_of_power_off]
    is set and lies in the future, the bridge is not queried: the tick
    suspends nowhere and adds nothing to the log, whatever [is_on] would
    answer.  If moreover the auth-failure flag is unset and Home Assistant
    is not stopping, the tick sets the state to [STATE_OFF] and changes
    nothing else; if one of the two holds, the tick returns at once and
    leaves the entity, its state included, as it was. *)
Theorem async_update_while_powering_off (W : World) (now t : datetime)
    (st : St) :
  _end_of_power_off (self st) = Some t ->
  now < t ->
  let (r, st') := async_update W now st in
  r = Returned tt
  /\ log st' = log st
  /\ awaits st' = awaits st
  /\ (_auth_failed (self st) = false ->
      is_stopping (hass (self st)) = false ->
      self st' = set_attr_state (Some STATE_OFF) (self st))
  /\ (_auth_failed (self st) = true \/ is_stopping (hass (self st)) = true ->
      st' = st).
Proof.
  intros Hend Hlt.
  assert (Hin : _power_off_in_progress now (self st) = true).
  { unfold _power_off_in_progress. rewrite Hend. apply Z.gtb_lt. exact Hlt. }
  unfold async_update, bind, get_self.
  destruct (_auth_failed (self st)) eqn:Ha; simpl.
  { repeat apply conj; auto; discriminate. }
  destruct (is_stopping (hass (self st))) eqn:Hs; simpl.
  { repeat apply conj; auto; discriminate. }
  rewrite Hin. simpl.
  repeat apply conj; auto.
  intros [H|H]; discriminate.
Qed.

(** One second after [async_turn_off] the tick reports off and asks the
    bridge nothing, although the bridge would answer "on". *)
Lemma async_update_while_powering_off_witness :
  let (r, st') := async_update world_on (timedelta_seconds 1) st_turned_off in
  r = Returned tt
  /\ log st' = log st_turned_off
  /\ awaits st' = awaits st_turned_off
  /\ (_auth_failed (self st_turned_off) = false ->
      is_stopping (hass (self st_turned_off)) = false ->
      self st' = set_attr_state (Some STATE_OFF) (self st_turned_off))
  /\ (_auth_failed (self st_turned_off) = true
      \/ is_stopping (hass (self st_turned_off)) = true ->
      st' = st_turned_off).
Proof.
  exact (async_update_while_powering_off world_on (timedelta_seconds 1)
           (timedelta_seconds 20) st_turned_off eq_refl eq_refl).
Defined.

(** C1 as stated fails: with the deadline 18 s ahead, a tick of an entity
    whose auth-failure flag is set leaves the state [STATE_ON]. *)
Lemma async_update_while_powering_off_counterexample :
  _end_of_power_off (self st_denied_while_powering_off)
  = Some (timedelta_seconds 21)
  /\ timedelta_seconds 3 < timedelta_seconds 21
  /\ _auth_failed (self st_denied_while_powering_off) = true
  /\ _attr_state
       (self (snd (async_update world_on (timedelta_seconds 3)
                     st_denied_while_powering_off)))
     = Some STATE_ON
  /\ _attr_state
       (self (snd (async_update world_on (timedelta_seconds 3)
                     st_denied_while_powering_off)))
     <> Some STATE_OFF.
Proof.
  repeat apply conj; try reflexivity. vm_compute. discriminate.
Qed.

(** C7, as amended.  In a tick that reaches the bridge query (auth-failure
    flag unset, Home Assistant not stopping) with a deadline that is set
    but no longer in the future, the bridge is queried and the stored
    deadline is left as it is: the tick does not reset it to [None].  The
    deadline counts as expired only because it is compared with the clock
    each time. *)
Theorem expired_deadline_stays_stored (W : World) (now t : datetime)
    (st : St) :
  _auth_failed (self st) = false ->
  is_stopping (hass (self st)) = false ->
  _end_of_power_off (self st) = Some t ->
  t <= now ->
  let st' := snd (async_update W now st) in
  _power_off_in_progress now (self st) = false
  /\ _end_of_power_off (self st') = Some t
  /\ exists evs,
       log st' = log st ++ Called bridge_async_is_on (self st) :: evs.
Proof.
  intros Hauth Hstop Hend Hle. cbv zeta.
  assert (Hin : _power_off_in_progress now (self st) = false).
  { unfold _power_off_in_progress. rewrite Hend.
    destruct (Z.gtb_spec t now); [lia | reflexivity]. }
  split; [exact Hin|]. split.
  - rewrite <- Hend. apply (async_update_keeps_deadline W now st).
  - enough (H : wp (async_update W now)
                  (fun _ st' =>
                     exists evs,
                       log st' =
                       log st ++ Called bridge_async_is_on (self st) :: evs)
                  st) by exact H.
    unfold async_update.
    wp_run.
    eapply wp_consequence.
    { apply (respects_wp extends_log).
      respect. respect_startup_tasks; respect. }
    cbn beta. intros _ st' [evs' L].
    exists (evs ++ evs'). cbn [log with_self] in L.
    rewrite L, Hlog, <- !app_assoc. reflexivity.
Qed.

(** Thirty seconds after [async_turn_off] the deadline of 20 s is still
    stored. *)
Lemma expired_deadline_stays_stored_witness :
  let st' := snd (async_update world_on (timedelta_seconds 30) st_turned_off) in
  _power_off_in_progress (timedelta_seconds 30) (self st_turned_off) = false
  /\ _end_of_power_off (self st') = Some (timedelta_seconds 20)
  /\ exists evs,
       log st' =
       log st_turned_off
       ++ Called bridge_async_is_on (self st_turned_off) :: evs.
Proof.
  apply (expired_deadline_stays_stored world_on (timedelta_seconds 30)
           (timedelta_seconds 20) st_turned_off);
    [reflexivity | reflexivity | reflexivity | discriminate].
Defined.

(** C7 as stated fails: a tick 30 s after [async_turn_off] queries the
    bridge with the 20 s deadline expired, and the deadline is not reset
    to [None]. *)
Lemma expired_deadline_counterexample :
  _auth_failed (self st_turned_off) = false
  /\ is_stopping (hass (self st_turned_off)) = false
  /\ _end_of_power_off (self st_turned_off) = Some (timedelta_seconds 20)
  /\ timedelta_seconds 20 <= timedelta_seconds 30
  /\ calls_of (log (snd (async_update world_on (timedelta_seconds 30)
                           st_turned_off)))
     = [bridge_async_power_off; bridge_async_is_on;
        bridge_async_request_app_list; wait_for_app_list_event 3]
  /\ _end_of_power_off
       (self (snd (async_update world_on (timedelta_seconds 30)
                     st_turned_off)))
     <> None.
Proof.
  repeat apply conj; try reflexivity; vm_compute; discriminate.
Qed.

(** ** The DMR session *)




(** C3, as amended.  [async_update] does not catch the error that
    [_async_startup_dmr] raises after unwinding: [asyncio.gather] raises
    it on and it leaves the tick, to the caller of [async_update].  The
    tick still leaves the session absent ([_dmr_device] and
    [_upnp_server] are [None]) and the state [STATE_ON]. *)
Theorem async_update_lets_subscribe_error_escape (W : World) (now : datetime)
    (st : St) (location : string) (e : Exn) :
  _auth_failed (self st) = false ->
  is_stopping (hass (self st)) = false ->
  _power_off_in_progress now (self st) = false ->
  _ssdp_rendering_control_location (self st) = Some location ->
  location <> "" ->
  _dmr_device (self st) = None ->
  (forall n, w_is_on W n = true) ->
  (forall n, w_create_device W n = None) ->
  (forall n, w_subscribe W n = Some e) ->
  isinstance e UpnpError = true ->
  isinstance e UpnpResponseError = false ->
  let (r, st') := async_update W now st in
  r = Raised e
  /\ _dmr_device (self st') = None
  /\ _upnp_server (self st') = None
  /\ _attr_state (self st') = Some STATE_ON.
Proof.
  intros Hauth Hstop Hoff Hloc Hne Hdmr Hon Hcreate Hsub He1 He2.
  enough (H : wp (async_update W now)
                (fun r st' => r = Raised e
                              /\ session (self st') = (None, None)
                              /\ _attr_state (self st') = Some STATE_ON) st).
  { unfold wp in H. destruct (async_update W now st) as [r st']. simpl in H.
    destruct H as (Hr & Hses & Hst). unfold session in Hses.
    injection Hses as H1 H2. auto. }
  assert (Htruthy : truthy_str (Some location) = true).
  { unfold truthy_str. apply negb_true_iff, String.eqb_neq. exact Hne. }
  unfold async_update.
  wp_run. rewrite Hon. cbn [state_eqb negb].
  wp_step.
  match goal with
  | H1 : _dmr_device (self ?s) = _dmr_device (self st),
    H2 : _ssdp_rendering_control_location (self ?s) = _ |- _ =>
      rewrite H1, H2, Hdmr, Hloc, Htruthy
  end.
  cbn [is_some negb andb].
  destruct (_app_list_event (self st0)) eqn:Hev; cbn [negb app].
  - wp_step.
    eapply wp_consequence.
    { apply startup_dmr_unwinds with (location := location) (e := e);
        fields; auto; congruence. }
    cbn beta. intros r st' (Hr & Hses & Hset & _).
    wp_step. rewrite Hr. split; [reflexivity|]. split; [assumption|].
    unfold settings in Hset. cbn in Hset.
    injection Hset as _ _ _ _ _ _ Hst _ _.
    exact Hst.
  - wp_step.
    eapply wp_consequence; [apply startup_app_list_settles|].
    cbn beta. intros r1 st1 (Hr1 & Hset1 & Hses1 & _).
    unfold settings in Hset1. unfold session in Hses1. cbn in Hset1, Hses1.
    injection Hset1 as _ _ _ Hloc1 _ _ Hst1 _ _.
    injection Hses1 as Hdmr1 _.
    wp_step.
    eapply wp_consequence.
    { apply startup_dmr_unwinds with (location := location) (e := e);
        auto; congruence. }
    cbn beta. intros r st' (Hr & Hses & Hset & _).
    wp_step. rewrite Hr1, Hr. split; [reflexivity|]. split; [assumption|].
    unfold settings in Hset. injection Hset as _ _ _ _ _ _ Hst _ _.
    congruence.
Qed.

(** The first tick of a fresh entity with a rendering-control location,
    in a world where subscribing fails with [UpnpError]. *)
Lemma async_update_lets_subscribe_error_escape_witness :
  let (r, st') :=
    async_update world_subscribe_fails 0 (boot (tv (Some dmr_location))) in
  r = Raised UpnpError
  /\ _dmr_device (self st') = None
  /\ _upnp_server (self st') = None
  /\ _attr_state (self st') = Some STATE_ON.
Proof.
  apply (async_update_lets_subscribe_error_escape world_subscribe_fails 0
           (boot (tv (Some dmr_location))) dmr_location UpnpError);
    try reflexivity; try discriminate; intros n; reflexivity.
Defined.

(** C3 as stated fails: that tick does not return, it raises. *)
Lemma async_update_raises_counterexample :
  fst (async_update world_subscribe_fails 0 (boot (tv (Some dmr_location))))
  = Raised UpnpError
  /\ fst (async_update world_subscribe_fails 0
            (boot (tv (Some dmr_location))))
     <> Returned tt.
Proof. split; [reflexivity | vm_compute; discriminate]. Qed.

(** ** The app-list gate *)

(** C4.  Once [_app_list_event] is set, by the callback or by the
    timeout, a tick at any later point of the entity's life leaves it set
    and suspends neither on [async_request_app_list] nor on the timed
    wait: what the tick adds to the log holds no such call. *)
Theorem resolved_gate_makes_no_app_list_call (W : World)
    (calls : list (datetime * Method)) (now : datetime) (st : St) :
  _app_list_event (self st) = true ->
  let st1 := lifetime W calls st in
  let st2 := snd (async_update W now st1) in
  _app_list_event (self st2) = true
  /\ exists evs, log st2 = log st1 ++ evs
                 /\ filter is_app_list_call (calls_of evs) = [].
Proof.
  intros Hev. cbv zeta.
  apply (async_update_gate_at_rest W now).
  apply (lifetime_keeps_gate W calls st). exact Hev.
Qed.

(** The gate resolved by the timeout in the first tick; a volume command
    later, the next tick. *)
Lemma resolved_gate_makes_no_app_list_call_witness :
  let st1 :=
    lifetime world_on [(timedelta_seconds 5, m_async_volume_up)]
      st_gate_timed_out in
  let st2 := snd (async_update world_on (timedelta_seconds 15) st1) in
  _app_list_event (self st2) = true
  /\ exists evs, log st2 = log st1 ++ evs
                 /\ filter is_app_list_call (calls_of evs) = [].
Proof.
  exact (resolved_gate_makes_no_app_list_call world_on
           [(timedelta_seconds 5, m_async_volume_up)] (timedelta_seconds 15)
           st_gate_timed_out eq_refl).
Defined.

(** C8.  In any state in which the gate is resolved, however it got
    resolved and whatever the entity did since, [_app_list_callback]
    replaces the stored map by the delivered one and the gate stays
    resolved; and no invocation or callback in the life of the entity
    resets a resolved gate. *)
Theorem gate_resolved_once_and_for_all (W : World)
    (calls : list (datetime * Method)) (app_list : dict) (st : St) :
  _app_list_event (self st) = true ->
  let st1 := lifetime W calls st in
  let st2 := deliver (app_list_received app_list) st1 in
  _app_list_event (self st1) = true
  /\ _app_list (self st2) = Some app_list
  /\ _app_list_event (self st2) = true.
Proof.
  intros Hev. cbv zeta.
  split; [apply (lifetime_keeps_gate W calls st); exact Hev|].
  simpl. unfold _app_list_callback. simpl.
  destruct (update_sources_fields
              (set_app_list (Some app_list)
                 (self (lifetime W calls st))))
    as (_ & _ & E & _).
  split; [exact E | reflexivity].
Qed.

(** The gate resolved by the timeout with no map stored; after a further
    tick the callback delivers one app. *)
Lemma gate_resolved_once_and_for_all_witness :
  _app_list (self st_gate_timed_out) = None
  /\ let st1 :=
       lifetime world_on [(timedelta_seconds 15, m_async_update)]
         st_gate_timed_out in
     let st2 := deliver (app_list_received [("Netflix", "11101200001")]) st1 in
     _app_list_event (self st1) = true
     /\ _app_list (self st2) = Some [("Netflix", "11101200001")]
     /\ _app_list_event (self st2) = true.
Proof.
  split; [reflexivity|].
  exact (gate_resolved_once_and_for_all world_on
           [(timedelta_seconds 15, m_async_update)]
           [("Netflix", "11101200001")] st_gate_timed_out eq_refl).
Defined.

(** ** Commands *)

(** C5.  While the debounce deadline is in the future, [_async_send_keys]
    with a first key other than ["KEY_POWEROFF"] and [_async_launch_app]
    return after logging at [INFO]; they do not suspend and forward
    nothing to the bridge.  So does every command of the entity that
    sends keys or launches an app: it adds no call to the log. *)
Theorem commands_suppressed_while_powering_off (W : World) (now t : datetime)
    (st : St) (key0 : string) (rest : list string) (app_id : string) :
  _end_of_power_off (self st) = Some t ->
  now < t ->
  key0 <> "KEY_POWEROFF" ->
  _async_send_keys W now (key0 :: rest) st
  = (Returned tt,
     emit (Logged INFO "TV is powering off, not sending keys: %s") st)
  /\ _async_launch_app W now app_id st
     = (Returned tt,
        emit (Logged INFO "TV is powering off, not sending launch_app command")
             st)
  /\ (forall msg,
        calls_of (log (emit (Logged INFO msg) st)) = calls_of (log st))
  /\ (forall m,
        sends_keys_or_launches m = true ->
        calls_of (log (snd (invoke W now m st))) = calls_of (log st)).
Proof.
  intros Hend Hlt Hkey.
  assert (Hin : _power_off_in_progress now (self st) = true).
  { unfold _power_off_in_progress. rewrite Hend. apply Z.gtb_lt. exact Hlt. }
  apply String.eqb_neq in Hkey.
  repeat apply conj.
  - unfold _async_send_keys, bind, get_self. rewrite Hin, Hkey. reflexivity.
  - unfold _async_launch_app, bind, get_self. rewrite Hin. reflexivity.
  - intros msg. simpl. rewrite calls_of_app. simpl. apply app_nil_r.
  - intros m Hm.
    apply (command_suppressed W now t st m Hend Hlt Hm).
Qed.

(** One second after [async_turn_off]: a volume key and an app launch. *)
Lemma commands_suppressed_while_powering_off_witness :
  _async_send_keys world_on (timedelta_seconds 1) ["KEY_VOLUP"] st_turned_off
  = (Returned tt,
     emit (Logged INFO "TV is powering off, not sending keys: %s")
          st_turned_off)
  /\ _async_launch_app world_on (timedelta_seconds 1) "11101200001"
       st_turned_off
     = (Returned tt,
        emit (Logged INFO "TV is powering off, not sending launch_app command")
             st_turned_off)
  /\ (forall msg,
        calls_of (log (emit (Logged INFO msg) st_turned_off))
        = calls_of (log st_turned_off))
  /\ (forall m,
        sends_keys_or_launches m = true ->
        calls_of (log (snd (invoke world_on (timedelta_seconds 1)
                              m st_turned_off)))
        = calls_of (log st_turned_off)).
Proof.
  apply (commands_suppressed_while_powering_off world_on
           (timedelta_seconds 1) (timedelta_seconds 20) st_turned_off
           "KEY_VOLUP" [] "11101200001");
    [reflexivity | reflexivity | discriminate].
Defined.

(** C6.  [async_turn_off] first stores the deadline, the current time
    plus the poll interval plus five seconds, and then suspends on the
    bridge's power-off command: the entity that any other task sees
    during that suspension already holds the deadline.  The power-off
    command is the only call [async_turn_off] makes. *)
Theorem turn_off_sets_deadline_before_power_off (W : World) (now : datetime)
    (st : St) :
  let deadline := now + (DEFAULT_SCAN_INTERVAL W + timedelta_seconds 5) in
  let (r, st') := async_turn_off W now st in
  r = Returned tt
  /\ _end_of_power_off (self st') = Some deadline
  /\ exists evs,
       log st' =
       log st
       ++ Called bridge_async_power_off
                 (set_end_of_power_off (Some deadline) (self st))
          :: evs
       /\ calls_of evs = [].
Proof.
  cbv zeta.
  enough (H : wp (async_turn_off W now)
                (fun r st' =>
                   r = Returned tt
                   /\ _end_of_power_off (self st')
                      = Some (now + (DEFAULT_SCAN_INTERVAL W + timedelta_seconds 5))
                   /\ exists evs,
                        log st' =
                        log st
                        ++ Called bridge_async_power_off
                             (set_end_of_power_off
                                (Some (now + (DEFAULT_SCAN_INTERVAL W + timedelta_seconds 5)))
                                (self st))
                           :: evs
                        /\ calls_of evs = []) st).
  { unfold wp in H. destruct (async_turn_off W now st) as [r st'].
    exact H. }
  unfold async_turn_off, SCAN_INTERVAL_PLUS_OFF_TIME.
  wp_run.
  split; [reflexivity|]. split; [assumption|].
  exists evs. rewrite Hlog, <- app_assoc. split; [reflexivity | assumption].
Qed.

(** C10.  [async_mute_volume] does the same whatever its argument: from
    one state, the runs with any two arguments are equal.  Each either
    logs and sends nothing (the TV is powering off) or suspends once, on
    sending the single key ["KEY_MUTE"]. *)
Theorem mute_ignores_its_argument (W : World) (now : datetime)
    (mute1 mute2 : bool) (st : St) :
  async_mute_volume W now mute1 st = async_mute_volume W now mute2 st
  /\ async_mute_volume W now mute1 st
     = (if _power_off_in_progress now (self st)
        then (Returned tt,
              emit (Logged INFO "TV is powering off, not sending keys: %s") st)
        else (Returned tt,
              deliveries (w_delivered W (awaits st))
                (suspend
                   (emit (Called (bridge_async_send_keys ["KEY_MUTE"]) (self st))
                         st)))).
Proof.
  split; [reflexivity|].
  unfold async_mute_volume, _async_send_keys, bind, get_self.
  destruct (_power_off_in_progress now (self st)); reflexivity.
Qed.

(** ** Availability *)

(** C9.  The entity is available exactly when the auth-failure flag is
    unset and one of these holds: its state is [STATE_ON], an on-script
    is configured, a MAC address is configured, the debounce deadline is
    in the future. *)
Theorem available_iff (now : datetime) (d : Device) :
  available now d = true <->
  _auth_failed d = false
  /\ (_attr_state d = Some STATE_ON
      \/ _on_script d <> None
      \/ _mac d <> None
      \/ exists t, _end_of_power_off d = Some t /\ now < t).
Proof.
  unfold available, _power_off_in_progress.
  destruct (_auth_failed d); [split; [discriminate | intros [H _]; discriminate]|].
  rewrite !orb_true_iff.
  split.
  - intros [[[H|H]|H]|H]; split; try reflexivity.
    + left. destruct (_attr_state d) as [[|]|]; simpl in H;
        try discriminate; reflexivity.
    + right. left. destruct (_on_script d); [discriminate | discriminate H].
    + right. right. left. destruct (_mac d); [discriminate | discriminate H].
    + right. right. right.
      destruct (_end_of_power_off d) as [t|]; [|discriminate].
      exists t. split; [reflexivity | apply Z.gtb_lt; exact H].
  - intros [_ [H|[H|[H|(t & H & Hlt)]]]].
    + left. left. left. rewrite H. reflexivity.
    + left. left. right. destruct (_on_script d); [reflexivity | contradiction].
    + left. right. destruct (_mac d); [reflexivity | contradiction].
    + right. rewrite H. apply Z.gtb_lt. exact Hlt.
Qed.

(** * Further properties *)

(** ** More relations that every step respects *)

Lemma keeps_auth_failed_refl (st : St) : keeps_auth_failed st st.
Proof. unfold keeps_auth_failed. auto. Qed.

Lemma keeps_auth_failed_trans (st1 st2 st3 : St) :
  keeps_auth_failed st1 st2 -> keeps_auth_failed st2 st3 ->
  keeps_auth_failed st1 st3.
Proof. unfold keeps_auth_failed. auto. Qed.

Lemma keeps_auth_failed_undisturbed (st1 st2 : St) :
  undisturbed st1 st2 -> keeps_auth_failed st1 st2.
Proof. intros (_ & _ & _ & H & _). exact H. Qed.

Lemma keeps_sources_refl (st : St) : keeps_sources st st.
Proof. unfold keeps_sources. auto. Qed.

Lemma keeps_sources_trans (st1 st2 st3 : St) :
  keeps_sources st1 st2 -> keeps_sources st2 st3 -> keeps_sources st1 st3.
Proof. unfold keeps_sources. auto. Qed.

Lemma keeps_session_whole_refl (st : St) : keeps_session_whole st st.
Proof. unfold keeps_session_whole. auto. Qed.

Lemma keeps_session_whole_trans (st1 st2 st3 : St) :
  keeps_session_whole st1 st2 -> keeps_session_whole st2 st3 ->
  keeps_session_whole st1 st3.
Proof. unfold keeps_session_whole. auto. Qed.

Lemma keeps_session_whole_undisturbed (st1 st2 : St) :
  undisturbed st1 st2 -> keeps_session_whole st1 st2.
Proof.
  intros (_ & H & _). unfold keeps_session_whole, session_whole, session in *.
  injection H as H1 H2. rewrite H1, H2. auto.
Qed.

#[export] Hint Resolve
  keeps_auth_failed_refl keeps_auth_failed_trans keeps_auth_failed_undisturbed
  keeps_sources_refl keeps_sources_trans
  keeps_session_whole_refl keeps_session_whole_trans
  keeps_session_whole_undisturbed : preorder.

Ltac auth_leaf :=
  try solve
    [ apply keeps_auth_failed_undisturbed;
      first [ apply deliver_undisturbed | apply update_from_upnp_undisturbed ]
    | unfold keeps_auth_failed; simpl; auto ].

Lemma invoke_keeps_auth_failed (W : World) (now : datetime) (m : Method) :
  respects keeps_auth_failed (invoke W now m).
Proof.
  destruct m; unfold invoke; repeat respect_step; auth_leaf.
  respect_startup_tasks; repeat respect_step; auth_leaf.
Qed.

Lemma invoke_keeps_deadline (W : World) (now : datetime) (m : Method) :
  m <> m_async_turn_off ->
  respects keeps_deadline (invoke W now m).
Proof.
  intros Hm.
  destruct m; try (exfalso; apply Hm; reflexivity); unfold invoke; respect.
  respect_startup_tasks; respect.
Qed.

Lemma startup_dmr_keeps_gate (W : World) :
  respects keeps_gate (_async_startup_dmr W).
Proof. respect. Qed.

(** ** The source list *)

Lemma app_list_callback_sources (app_list : dict) (d : Device) :
  sources_in_step (_app_list_callback app_list d).
Proof.
  unfold sources_in_step, _app_list_callback, _update_sources. simpl.
  destruct app_list as [|p l]; simpl; reflexivity.
Qed.

Lemma update_from_upnp_sources (st : St) :
  _attr_source_list (self (_update_from_upnp st)) = _attr_source_list (self st)
  /\ _app_list (self (_update_from_upnp st)) = _app_list (self st).
Proof.
  unfold _update_from_upnp.
  destruct (_dmr_device (self st)) as [r|]; [|split; reflexivity].
  destruct (nth_error (dmr_devices st) r) as [o|]; [|split; reflexivity].
  destruct (volume_level o), (is_volume_muted o); split; reflexivity.
Qed.

Lemma update_from_upnp_keeps_sources (st : St) :
  keeps_sources st (_update_from_upnp st).
Proof.
  unfold keeps_sources, sources_in_step.
  destruct (update_from_upnp_sources st) as [E1 E2]. rewrite E1, E2. auto.
Qed.

Lemma deliver_keeps_sources (cb : Callback) (st : St) :
  keeps_sources st (deliver cb st).
Proof.
  destruct cb as [app_list| |r volume muted]; simpl.
  - intros _. apply app_list_callback_sources.
  - unfold keeps_sources. simpl. auto.
  - set (st1 := with_dmr_devices _ st).
    assert (K1 : keeps_sources st st1) by (unfold keeps_sources; simpl; auto).
    destruct (nth_error _ r) as [o|]; [|exact K1].
    destruct (on_event o); [|exact K1].
    eapply keeps_sources_trans; [exact K1|].
    unfold _on_upnp_event.
    eapply keeps_sources_trans; [apply update_from_upnp_keeps_sources|].
    unfold keeps_sources. simpl. auto.
Qed.

Lemma deliveries_keeps_sources (cbs : list Callback) (st : St) :
  keeps_sources st (deliveries cbs st).
Proof.
  unfold deliveries. revert st.
  induction cbs as [|cb cbs IH]; intros st; simpl.
  - apply keeps_sources_refl.
  - eapply keeps_sources_trans; [apply deliver_keeps_sources | apply IH].
Qed.

Lemma await_keeps_sources (W : World) (c : Call) (st : St) :
  respects_at keeps_sources (await W c) st.
Proof.
  unfold respects_at, await. simpl.
  eapply keeps_sources_trans; [|apply deliveries_keeps_sources].
  unfold keeps_sources. simpl. auto.
Qed.

Ltac sources_leaf :=
  try solve
    [ apply deliver_keeps_sources
    | apply update_from_upnp_keeps_sources
    | unfold keeps_sources, sources_in_step; simpl; auto ].

Ltac sources_step := first [ apply await_keeps_sources | respect_step ].

Lemma invoke_keeps_sources (W : World) (now : datetime) (m : Method) :
  respects keeps_sources (invoke W now m).
Proof.
  destruct m; unfold invoke; repeat sources_step; sources_leaf.
  respect_startup_tasks; repeat sources_step; sources_leaf.
Qed.

Lemma dict_get_none (d : dict) (k : string) :
  dict_get d k = None <-> ~ In k (dict_keys d).
Proof.
  induction d as [|[k' v] d IH]; simpl.
  - split; auto.
  - destruct (String.eqb_spec k k') as [E|E].
    + split; [discriminate | intros H; exfalso; apply H; left; auto].
    + rewrite IH. split.
      * intros H [H1|H1]; [apply E; auto | auto].
      * intros H H1. apply H. right. exact H1.
Qed.

Lemma select_source_lookup (d : Device) (source : string) :
  (if truthy_dict (_app_list d)
   then match _app_list d with
        | Some app_list => dict_get app_list source
        | None => None
        end
   else None) = app_id_of d source.
Proof.
  unfold app_id_of. destruct (_app_list d) as [[|p l]|]; reflexivity.
Qed.

Lemma listed_source (d : Device) (source : string) :
  sources_in_step d ->
  In source (_attr_source_list d) <->
  app_id_of d source <> None \/ dict_get SOURCES source <> None.
Proof.
  unfold sources_in_step, app_id_of. intros ->.
  rewrite in_app_iff, (dict_get_none SOURCES source).
  destruct (_app_list d) as [l|].
  - rewrite (dict_get_none l source).
    destruct (in_dec string_dec source (dict_keys SOURCES));
      destruct (in_dec string_dec source (dict_keys l)); tauto.
  - destruct (in_dec string_dec source (dict_keys SOURCES)); simpl; tauto.
Qed.

Lemma select_source_rejects (W : World) (now : datetime) (source : string)
    (st : St) :
  sources_in_step (self st) ->
  ~ In source (_attr_source_list (self st)) ->
  async_select_source W now source st
  = (Returned tt, emit (Logged ERROR "Unsupported source") st).
Proof.
  intros Hinv Hnot.
  pose proof (listed_source (self st) source Hinv) as Hl.
  assert (H1 : app_id_of (self st) source = None).
  { destruct (app_id_of (self st) source); [|reflexivity].
    exfalso. apply Hnot, Hl. left. discriminate. }
  assert (H2 : dict_get SOURCES source = None).
  { destruct (dict_get SOURCES source); [|reflexivity].
    exfalso. apply Hnot, Hl. right. discriminate. }
  unfold async_select_source, bind, get_self.
  rewrite select_source_lookup, H1, H2. reflexivity.
Qed.

Lemma select_source_dispatches (W : World) (now : datetime) (source : string)
    (st : St) :
  sources_in_step (self st) ->
  In source (_attr_source_list (self st)) ->
  _power_off_in_progress now (self st) = false ->
  _bridge (self st) = SamsungTVWSBridge ->
  wp (async_select_source W now source)
     (fun _ st' =>
        (exists app_id,
            app_id_of (self st) source = Some app_id
            /\ calls_of (log st')
               = calls_of (log st) ++ [bridge_async_launch_app app_id])
        \/ (app_id_of (self st) source = None
            /\ exists key,
                 dict_get SOURCES source = Some key
                 /\ calls_of (log st')
                    = calls_of (log st) ++ [bridge_async_send_keys [key]]))
     st.
Proof.
  intros Hinv Hin Hoff Hws.
  pose proof (listed_source (self st) source Hinv) as Hl.
  unfold async_select_source.
  wp_step. wp_step. rewrite select_source_lookup.
  destruct (app_id_of (self st) source) as [app_id|] eqn:Happ.
  - unfold _async_launch_app. wp_run. cbn [is_ws_bridge negb]. wp_run.
    left. exists app_id. split; [reflexivity|].
    trace_back. simpl. rewrite ?app_nil_r. reflexivity.
  - destruct (dict_get SOURCES source) as [key|] eqn:Hkey.
    + unfold _async_send_keys. wp_run.
      right. split; [reflexivity|]. exists key. split; [reflexivity|].
      trace_back. simpl. rewrite ?app_nil_r. reflexivity.
    + exfalso. apply Hl in Hin. destruct Hin as [H|H]; apply H; reflexivity.
Qed.

(** ** The DMR session: tear-down and the other ways a start-up ends *)

Lemma shutdown_dmr_spec (W : World) (st : St) :
  wp (_async_shutdown_dmr W)
     (fun r st' =>
        r = Returned tt
        /\ session (self st') = (None, None)
        /\ settings (self st') = settings (self st)
        /\ calls_of (log st') =
           calls_of (log st)
           ++ match _dmr_device (self st) with
              | Some dmr => [dmr_device_async_unsubscribe_services dmr]
              | None => []
              end
           ++ match _upnp_server (self st) with
              | Some server => [upnp_server_async_stop_server server]
              | None => []
              end
        /\ map dmr_shape (dmr_devices st') =
           map dmr_shape
             match _dmr_device (self st) with
             | Some dmr => list_update (dmr_devices st) dmr (set_on_event false)
             | None => dmr_devices st
             end
        /\ upnp_servers st' =
           match _upnp_server (self st) with
           | Some server =>
               list_update (upnp_servers st) server (set_running false)
           | None => upnp_servers st
           end)
     st.
Proof.
  unfold _async_shutdown_dmr.
  destruct (_dmr_device (self st)) as [dmr|] eqn:Hdmr;
    destruct (_upnp_server (self st)) as [server|] eqn:Hsrv.
  all: wp_run.
  all: split; [reflexivity|].
  all: split; [same_fields|].
  all: split; [same_fields|].
  all: split;
    [trace_back; simpl; rewrite <- ?app_assoc, ?app_nil_r; reflexivity|].
  all: split; [congruence | trace_back; reflexivity].
Qed.

Lemma startup_dmr_connects (W : World) (st : St) (location : string) :
  _ssdp_rendering_control_location (self st) = Some location ->
  _dmr_device (self st) = None ->
  w_create_device W (awaits st) = None ->
  (w_subscribe W (awaits st + 3) = None
   \/ exists e, w_subscribe W (awaits st + 3) = Some e
                /\ isinstance e UpnpResponseError = true) ->
  wp (_async_startup_dmr W)
     (fun r st' =>
        r = Returned tt
        /\ session (self st')
           = (Some (List.length (dmr_devices st)),
              Some (List.length (upnp_servers st)))
        /\ map dmr_shape (dmr_devices st') =
           map dmr_shape (dmr_devices st)
           ++ [(MkUpnpDevice location, List.length (upnp_servers st), true)]
        /\ map ns_running (upnp_servers st') =
           map ns_running (upnp_servers st) ++ [true]
        /\ calls_of (log st') =
           calls_of (log st)
           ++ [upnp_factory_async_create_device location;
               async_get_local_ip location;
               upnp_server_async_start_server (List.length (upnp_servers st));
               dmr_device_async_subscribe_services
                 (List.length (dmr_devices st)) true])
     st.
Proof.
  intros Hloc Hdmr Hcreate Hsub.
  replace (awaits st + 3)%nat with (S (S (S (awaits st)))) in Hsub by lia.
  unfold _async_startup_dmr.
  destruct Hsub as [Hsub | (e & Hsub & He)]; wp_run.
  all: assert (Hlen : List.length (dmr_devices st2)
                      = List.length (dmr_devices st))
    by (rewrite <- (length_map dmr_shape (dmr_devices st2)),
                <- (length_map dmr_shape (dmr_devices st)); congruence).
  all: split; [reflexivity|].
  all: split;
    [ unfold session;
      repeat match goal with
             | H : _dmr_device _ = _ |- _ => rewrite H
             | H : _upnp_server _ = _ |- _ => rewrite H
             end;
      fields; trace_back; rewrite Hlen; reflexivity |].
  all: split;
    [ rewrite Hdmrs2, list_update_last, map_app, Hdmrs1, Hdmrs0, Hdmrs;
      trace_back; reflexivity |].
  all: split;
    [ trace_back; rewrite list_update_last, map_app; reflexivity |].
  all: trace_back; simpl; rewrite Hlen, <- ?app_assoc, ?app_nil_r; reflexivity.
Qed.

Ltac whole_tac :=
  unfold session_whole in *; fields;
  repeat match goal with
         | H : _dmr_device _ = _ |- _ => rewrite H
         | H : _upnp_server _ = _ |- _ => rewrite H
         end;
  try reflexivity.

Lemma startup_dmr_keeps_session_whole (W : World) :
  respects keeps_session_whole (_async_startup_dmr W).
Proof.
  intros st Hw.
  enough (H : wp (_async_startup_dmr W)
                (fun _ st' => session_whole (self st')) st) by exact H.
  unfold _async_startup_dmr.
  wp_step. wp_step.
  destruct (_ssdp_rendering_control_location (self st)) as [location|];
    [|wp_run; exact Hw].
  destruct (_dmr_device (self st)) as [dmr|] eqn:Hdmr; cbn [is_some].
  { wp_run. unfold session_whole in *. rewrite Hdmr in *. exact Hw. }
  assert (Hsrv : _upnp_server (self st) = None).
  { unfold session_whole in Hw. rewrite Hdmr in Hw.
    destruct (_upnp_server (self st)); [discriminate | reflexivity]. }
  wp_all.
  all: whole_tac.
Qed.

Lemma shutdown_dmr_keeps_session_whole (W : World) :
  respects keeps_session_whole (_async_shutdown_dmr W).
Proof.
  intros st _.
  pose proof (shutdown_dmr_spec W st) as H. unfold wp in H.
  destruct H as (_ & Hses & _).
  unfold session in Hses. injection Hses as H1 H2.
  unfold session_whole. rewrite H1, H2. reflexivity.
Qed.

Ltac whole_leaf :=
  try solve
    [ apply keeps_session_whole_undisturbed;
      first [ apply deliver_undisturbed | apply update_from_upnp_undisturbed ]
    | unfold keeps_session_whole, session_whole; simpl; auto ].

Ltac whole_step :=
  first [ apply startup_dmr_keeps_session_whole
        | apply shutdown_dmr_keeps_session_whole
        | respect_step ].

Lemma invoke_keeps_session_whole (W : World) (now : datetime) (m : Method) :
  respects keeps_session_whole (invoke W now m).
Proof.
  destruct m; unfold invoke, async_will_remove_from_hass;
    repeat whole_step; whole_leaf.
  respect_startup_tasks; repeat whole_step; whole_leaf.
Qed.

(** ** UPnP notifications *)

Lemma nth_error_list_update (A : Type) (f : A -> A) (l : list A) (i : nat) :
  nth_error (list_update l i f) i = option_map f (nth_error l i).
Proof.
  revert i. induction l as [|x l IH]; intros [|i]; simpl; auto.
Qed.

Lemma shape_at (l : list DmrDevice) (r : nat) :
  option_map dmr_shape (nth_error l r) = nth_error (map dmr_shape l) r.
Proof. symmetry. apply nth_error_map. Qed.

Lemma notify_detached (st : St) (r : nat) (volume : option float)
    (muted : option bool) :
  option_map on_event (nth_error (dmr_devices st) r) <> Some true ->
  self (deliver (upnp_notify r volume muted) st) = self st
  /\ log (deliver (upnp_notify r volume muted) st) = log st.
Proof.
  intros Hoff. simpl. rewrite nth_error_list_update.
  destruct (nth_error (dmr_devices st) r) as [o|]; simpl in *.
  - destruct (on_event o); [exfalso; apply Hoff; reflexivity|].
    split; reflexivity.
  - split; reflexivity.
Qed.

Lemma notify_attached (st : St) (r : nat) (o : DmrDevice) (v : float)
    (muted : option bool) :
  nth_error (dmr_devices st) r = Some o ->
  on_event o = true ->
  _dmr_device (self st) = Some r ->
  _attr_volume_level (self (deliver (upnp_notify r (Some v) muted) st))
  = Some v
  /\ log (deliver (upnp_notify r (Some v) muted) st)
     = log st ++ [Did async_write_ha_state].
Proof.
  intros Hr Hon Hd. simpl. rewrite nth_error_list_update, Hr. simpl.
  rewrite Hon. unfold _on_upnp_event, _update_from_upnp. simpl.
  rewrite Hd, nth_error_list_update, Hr. simpl.
  destruct muted as [m|]; [simpl; split; reflexivity|].
  destruct (is_volume_muted o); simpl; split; reflexivity.
Qed.

(** ** Magic packets *)

Lemma magic_packets_of_app (l1 l2 : list Event) :
  magic_packets_of (l1 ++ l2) = magic_packets_of l1 ++ magic_packets_of l2.
Proof. apply flat_map_app. Qed.

Lemma update_from_upnp_log (st : St) : log (_update_from_upnp st) = log st.
Proof.
  unfold _update_from_upnp.
  destruct (_dmr_device (self st)) as [r|]; [|reflexivity].
  destruct (nth_error (dmr_devices st) r) as [o|]; [|reflexivity].
  destruct (volume_level o), (is_volume_muted o); reflexivity.
Qed.

Lemma deliver_sends_no_packet (cb : Callback) (st : St) :
  magic_packets_of (log (deliver cb st)) = magic_packets_of (log st).
Proof.
  destruct cb as [app_list| |r volume muted]; simpl.
  - reflexivity.
  - rewrite !magic_packets_of_app. simpl. rewrite !app_nil_r. reflexivity.
  - destruct (nth_error _ r) as [o|]; [|reflexivity].
    destruct (on_event o); [|reflexivity].
    unfold _on_upnp_event. simpl.
    rewrite magic_packets_of_app, update_from_upnp_log. simpl.
    apply app_nil_r.
Qed.

Lemma deliveries_send_no_packet (cbs : list Callback) (st : St) :
  magic_packets_of (log (deliveries cbs st)) = magic_packets_of (log st).
Proof.
  unfold deliveries. revert st.
  induction cbs as [|cb cbs IH]; intros st; simpl; [reflexivity|].
  rewrite IH. apply deliver_sends_no_packet.
Qed.

Lemma await_observed (W : World) (c : Call) (st : St) :
  fst (await W c st) = Returned (awaits st)
  /\ settings (self (snd (await W c st))) = settings (self st)
  /\ calls_of (log (snd (await W c st))) = calls_of (log st) ++ [c]
  /\ magic_packets_of (log (snd (await W c st))) = magic_packets_of (log st).
Proof.
  unfold await. simpl.
  set (st1 := suspend (emit (Called c (self st)) st)).
  destruct (deliveries_undisturbed (w_delivered W (awaits st)) st1)
    as (Hset & _ & _ & _ & _ & _ & _ & evs & Hlog & Hcalls).
  split; [reflexivity|]. split; [exact Hset|]. split.
  - rewrite Hlog, calls_of_app, Hcalls. unfold st1. simpl.
    rewrite calls_of_app. simpl. rewrite app_nil_r. reflexivity.
  - rewrite deliveries_send_no_packet. unfold st1. simpl.
    rewrite magic_packets_of_app. simpl. apply app_nil_r.
Qed.

(** ** What the device and the bridge deliver *)

Lemma update_from_upnp_polls (st : St) (r : nat) (o : DmrDevice) :
  _dmr_device (self st) = Some r ->
  nth_error (dmr_devices st) r = Some o ->
  dmr_devices (_update_from_upnp st) = dmr_devices st
  /\ log (_update_from_upnp st) = log st
  /\ _attr_state (self (_update_from_upnp st)) = _attr_state (self st)
  /\ session (self (_update_from_upnp st)) = session (self st)
  /\ (forall v, volume_level o = Some v ->
                _attr_volume_level (self (_update_from_upnp st)) = Some v)
  /\ (forall m, is_volume_muted o = Some m ->
                _attr_is_volume_muted (self (_update_from_upnp st)) = m).
Proof.
  intros Hd Ho. unfold _update_from_upnp. rewrite Hd, Ho.
  destruct (volume_level o), (is_volume_muted o); simpl;
    repeat apply conj; try reflexivity; intros x Hx;
    try discriminate; injection Hx as <-; reflexivity.
Qed.

Lemma update_from_upnp_app_list (st : St) :
  _app_list_event (self (_update_from_upnp st)) = _app_list_event (self st)
  /\ _app_list (self (_update_from_upnp st)) = _app_list (self st).
Proof.
  unfold _update_from_upnp.
  destruct (_dmr_device (self st)) as [r|]; [|split; reflexivity].
  destruct (nth_error (dmr_devices st) r) as [o|]; [|split; reflexivity].
  destruct (volume_level o), (is_volume_muted o); split; reflexivity.
Qed.

Lemma deliver_app_list_known (app_list : dict) (st : St) :
  app_list_known (self (deliver (app_list_received app_list) st)).
Proof.
  simpl. unfold _app_list_callback, app_list_known. simpl.
  destruct (update_sources_fields (set_app_list (Some app_list) (self st)))
    as (_ & _ & E & _).
  rewrite E. split; [reflexivity | discriminate].
Qed.

Lemma deliver_keeps_app_list_known (cb : Callback) (st : St) :
  app_list_known (self st) -> app_list_known (self (deliver cb st)).
Proof.
  intros Hk. destruct cb as [app_list| |r volume muted].
  - apply deliver_app_list_known.
  - exact Hk.
  - simpl. destruct (nth_error _ r) as [o|]; [|exact Hk].
    destruct (on_event o); [|exact Hk].
    unfold _on_upnp_event, app_list_known. simpl.
    destruct (update_from_upnp_app_list
                (with_dmr_devices
                   (fun h => list_update h r (store_notified volume muted)) st))
      as [E1 E2].
    rewrite E1, E2. exact Hk.
Qed.

Lemma deliveries_keep_app_list_known (cbs : list Callback) (st : St) :
  app_list_known (self st) -> app_list_known (self (deliveries cbs st)).
Proof.
  unfold deliveries. revert st.
  induction cbs as [|cb cbs IH]; intros st Hk; simpl; [exact Hk|].
  apply IH, deliver_keeps_app_list_known, Hk.
Qed.

Lemma deliveries_make_app_list_known (cbs : list Callback) (app_list : dict)
    (st : St) :
  In (app_list_received app_list) cbs ->
  app_list_known (self (deliveries cbs st)).
Proof.
  revert st.
  induction cbs as [|cb cbs IH]; intros st Hin; [destruct Hin|].
  destruct Hin as [->|Hin].
  - apply (deliveries_keep_app_list_known cbs), deliver_app_list_known.
  - apply (IH (deliver cb st) Hin).
Qed.

(** ** Sources and media *)

(** X1.  Whatever is invoked on an entity made by [__init__], and whatever
    the bridge calls back meanwhile, the source list is the two built-in
    sources followed by the names of the stored app list, in the order of
    that list (and the two built-in sources alone while no app list is
    stored). *)
Theorem source_list_follows_app_list (W : World)
    (calls : list (datetime * Method)) (h : HomeAssistant) (bridge : Bridge)
    (config_entry : ConfigEntry) (on_script : option Script) :
  let d := self (lifetime W calls (boot (init h bridge config_entry on_script))) in
  _attr_source_list d =
  ["TV"; "HDMI"]
  ++ match _app_list d with Some app_list => dict_keys app_list | None => [] end.
Proof.
  cbv zeta.
  assert (H : forall st, sources_in_step (self st) ->
                         sources_in_step (self (lifetime W calls st))).
  { induction calls as [|[now m] calls IH]; intros st Hst; simpl; [exact Hst|].
    apply IH. apply (invoke_keeps_sources W now m st Hst). }
  apply (H (boot (init h bridge config_entry on_script))). reflexivity.
Qed.

(** X2.  With the source list in step with the stored app list,
    [async_select_source] accepts exactly the listed sources.  A source
    that is not listed is answered by the error message alone: nothing is
    called and the entity is unchanged.  A listed source (no power-off in
    progress, websocket bridge) leads to exactly one bridge call: the
    launch of the app stored under that name or, when no app has that
    name, the key of the built-in source. *)
Theorem select_source_accepts_listed_sources_only (W : World) (now : datetime)
    (source : string) (st : St) :
  sources_in_step (self st) ->
  (~ In source (_attr_source_list (self st)) ->
   async_select_source W now source st
   = (Returned tt, emit (Logged ERROR "Unsupported source") st))
  /\ (In source (_attr_source_list (self st)) ->
      _power_off_in_progress now (self st) = false ->
      _bridge (self st) = SamsungTVWSBridge ->
      let st' := snd (async_select_source W now source st) in
      (exists app_id,
          app_id_of (self st) source = Some app_id
          /\ calls_of (log st')
             = calls_of (log st) ++ [bridge_async_launch_app app_id])
      \/ (app_id_of (self st) source = None
          /\ exists key,
               dict_get SOURCES source = Some key
               /\ calls_of (log st')
                  = calls_of (log st) ++ [bridge_async_send_keys [key]])).
Proof.
  intros Hinv. split.
  - apply select_source_rejects. exact Hinv.
  - intros Hin Hoff Hws. cbv zeta.
    exact (select_source_dispatches W now source st Hinv Hin Hoff Hws).
Qed.

Lemma select_source_accepts_listed_sources_only_witness :
  sources_in_step (self (boot (tv None)))
  /\ (~ In "HDMI" (_attr_source_list (self (boot (tv None)))) ->
      async_select_source world_on 0 "HDMI" (boot (tv None))
      = (Returned tt,
         emit (Logged ERROR "Unsupported source") (boot (tv None))))
  /\ (In "HDMI" (_attr_source_list (self (boot (tv None)))) ->
      _power_off_in_progress 0 (self (boot (tv None))) = false ->
      _bridge (self (boot (tv None))) = SamsungTVWSBridge ->
      let st' := snd (async_select_source world_on 0 "HDMI" (boot (tv None))) in
      (exists app_id,
          app_id_of (self (boot (tv None))) "HDMI" = Some app_id
          /\ calls_of (log st')
             = calls_of (log (boot (tv None)))
               ++ [bridge_async_launch_app app_id])
      \/ (app_id_of (self (boot (tv None))) "HDMI" = None
          /\ exists key,
               dict_get SOURCES "HDMI" = Some key
               /\ calls_of (log st')
                  = calls_of (log (boot (tv None)))
                    ++ [bridge_async_send_keys [key]])).
Proof.
  split; [reflexivity|].
  exact (select_source_accepts_listed_sources_only world_on 0 "HDMI"
           (boot (tv None)) eq_refl).
Defined.

(** X3.  Once the bridge has delivered an app list, every app in it is
    listed as a source, after the built-in ones, and selecting it (no
    power-off in progress, websocket bridge) makes exactly one bridge
    call: the launch of the app id delivered under that name. *)
Theorem delivered_apps_become_launchable (W : World) (now : datetime)
    (app_list : dict) (source app_id : string) (st : St) :
  dict_get app_list source = Some app_id ->
  _power_off_in_progress now (self st) = false ->
  _bridge (self st) = SamsungTVWSBridge ->
  let st1 := deliver (app_list_received app_list) st in
  let st2 := snd (async_select_source W now source st1) in
  _attr_source_list (self st1) = dict_keys SOURCES ++ dict_keys app_list
  /\ In source (_attr_source_list (self st1))
  /\ calls_of (log st2) = calls_of (log st1) ++ [bridge_async_launch_app app_id].
Proof.
  intros Hget Hoff Hws. cbv zeta.
  remember (deliver (app_list_received app_list) st) as st1 eqn:Est1.
  assert (Hinv : sources_in_step (self st1))
    by (rewrite Est1; apply app_list_callback_sources).
  assert (Happ : _app_list (self st1) = Some app_list).
  { rewrite Est1. simpl. unfold _app_list_callback. simpl.
    destruct (update_sources_fields (set_app_list (Some app_list) (self st)))
      as (_ & _ & E & _). exact E. }
  assert (Hset : settings (self st1) = settings (self st))
    by (rewrite Est1;
        apply (deliver_undisturbed (app_list_received app_list) st)).
  clear Est1.
  assert (Hid : app_id_of (self st1) source = Some app_id).
  { unfold app_id_of. rewrite Happ. exact Hget. }
  assert (Hin : In source (_attr_source_list (self st1))).
  { apply (listed_source _ source Hinv). left. rewrite Hid. discriminate. }
  split; [|split; [exact Hin|]].
  { unfold sources_in_step in Hinv. rewrite Hinv, Happ. reflexivity. }
  unfold settings in Hset. injection Hset as _ _ _ _ _ _ _ Hend Hbr.
  assert (Hoff1 : _power_off_in_progress now (self st1) = false).
  { unfold _power_off_in_progress in *. rewrite Hend. exact Hoff. }
  assert (Hws1 : _bridge (self st1) = SamsungTVWSBridge) by congruence.
  destruct (select_source_dispatches W now source st1 Hinv Hin Hoff1 Hws1)
    as [(id & E1 & E2) | (E1 & _)].
  - rewrite Hid in E1. injection E1 as <-. exact E2.
  - rewrite Hid in E1. discriminate.
Qed.

Lemma delivered_apps_become_launchable_witness :
  let st1 :=
    deliver (app_list_received [("Netflix", "11101200001")]) (boot (tv None)) in
  let st2 := snd (async_select_source world_on 0 "Netflix" st1) in
  _attr_source_list (self st1) = ["TV"; "HDMI"; "Netflix"]
  /\ In "Netflix" (_attr_source_list (self st1))
  /\ calls_of (log st2)
     = calls_of (log st1) ++ [bridge_async_launch_app "11101200001"].
Proof.
  exact (delivered_apps_become_launchable world_on 0
           [("Netflix", "11101200001")] "Netflix" "11101200001"
           (boot (tv None)) eq_refl eq_refl eq_refl).
Defined.

(** X4.  [async_play_media] with a media type that is neither the app type
    nor the channel type, or with the channel type and a media id that
    [cv.positive_int] refuses, logs the matching error and does nothing
    else: no bridge call, the state otherwise unchanged, and no exception
    reaches the caller. *)
Theorem play_media_rejects_bad_input (W : World) (now : datetime)
    (media_type media_id : string) (st : St) :
  media_type <> MEDIA_TYPE_APP W ->
  media_type <> MEDIA_TYPE_CHANNEL W \/ cv_positive_int W media_id = false ->
  async_play_media W now media_type media_id st
  = (Returned tt,
     emit (Logged ERROR (if String.eqb media_type (MEDIA_TYPE_CHANNEL W)
                         then "Media ID must be positive integer"
                         else "Unsupported media type")) st).
Proof.
  intros Happ Hbad. apply String.eqb_neq in Happ.
  unfold async_play_media. rewrite Happ.
  destruct (String.eqb_spec media_type (MEDIA_TYPE_CHANNEL W)) as [E|E]; simpl.
  - destruct Hbad as [Hbad|Hbad]; [contradiction|].
    unfold bind, try_except, positive_int. rewrite Hbad. reflexivity.
  - reflexivity.
Qed.

Lemma play_media_rejects_bad_input_witness :
  async_play_media world_on 0 "music" "7" (boot (tv None))
  = (Returned tt,
     emit (Logged ERROR "Unsupported media type") (boot (tv None))).
Proof.
  refine (play_media_rejects_bad_input world_on 0 "music" "7"
            (boot (tv None)) _ _).
  - simpl. discriminate.
  - left. simpl. discriminate.
Defined.

(** X5.  [async_play_media] with the channel type and a media id that
    [cv.positive_int] accepts (no power-off in progress) makes exactly one
    bridge call: one key per character of the media id, in order, each
    spelled KEY_ followed by the character, and KEY_ENTER last.  A
    character is a code point, not a byte: an id written in fullwidth
    digits gives one key per digit. *)
Theorem play_media_channel_sends_digits (W : World) (now : datetime)
    (media_id : string) (st : St) :
  MEDIA_TYPE_CHANNEL W <> MEDIA_TYPE_APP W ->
  cv_positive_int W media_id = true ->
  _power_off_in_progress now (self st) = false ->
  let (r, st') := async_play_media W now (MEDIA_TYPE_CHANNEL W) media_id st in
  r = Returned tt
  /\ calls_of (log st') =
     calls_of (log st)
     ++ [bridge_async_send_keys
           (map (fun digit => String.append "KEY_" digit) (characters media_id)
            ++ ["KEY_ENTER"])].
Proof.
  intros Hne Hok Hoff.
  enough (H : wp (async_play_media W now (MEDIA_TYPE_CHANNEL W) media_id)
                (fun r st' =>
                   r = Returned tt
                   /\ calls_of (log st') =
                      calls_of (log st)
                      ++ [bridge_async_send_keys
                            (map (fun digit => String.append "KEY_" digit)
                                 (characters media_id)
                             ++ ["KEY_ENTER"])]) st).
  { unfold wp in H.
    destruct (async_play_media W now (MEDIA_TYPE_CHANNEL W) media_id st)
      as [r st']. exact H. }
  apply String.eqb_neq in Hne.
  unfold async_play_media, positive_int, _async_send_keys.
  rewrite Hne, String.eqb_refl, Hok. cbn [negb].
  destruct (characters media_id) as [|digit digits];
    cbn [map app]; wp_run; cbn [andb]; wp_run.
  all: split; [reflexivity|].
  all: trace_back; simpl; rewrite ?app_nil_r; reflexivity.
Qed.

Lemma play_media_channel_sends_digits_witness :
  String.length "１２" = 6%nat
  /\ let (r, st') :=
       async_play_media world_on 0 "channel" "１２" (boot (tv None)) in
     r = Returned tt
     /\ calls_of (log st')
        = [bridge_async_send_keys ["KEY_１"; "KEY_２"; "KEY_ENTER"]].
Proof.
  split; [reflexivity|].
  refine (play_media_channel_sends_digits world_on 0 "１２" (boot (tv None))
            _ eq_refl eq_refl).
  simpl. discriminate.
Defined.

(** ** Keys *)

(** X6.  A key sequence that starts with KEY_POWEROFF is sent to the
    bridge whether or not a power-off is in progress: [_async_send_keys]
    makes exactly that one bridge call, returns, and leaves the entity's
    settings as they were. *)
Theorem poweroff_key_is_never_suppressed (W : World) (now : datetime)
    (rest : list string) (st : St) :
  let (r, st') := _async_send_keys W now ("KEY_POWEROFF" :: rest) st in
  r = Returned tt
  /\ calls_of (log st') =
     calls_of (log st) ++ [bridge_async_send_keys ("KEY_POWEROFF" :: rest)]
  /\ settings (self st') = settings (self st).
Proof.
  enough (H : wp (_async_send_keys W now ("KEY_POWEROFF" :: rest))
                (fun r st' =>
                   r = Returned tt
                   /\ calls_of (log st') =
                      calls_of (log st)
                      ++ [bridge_async_send_keys ("KEY_POWEROFF" :: rest)]
                   /\ settings (self st') = settings (self st)) st).
  { unfold wp in H.
    destruct (_async_send_keys W now ("KEY_POWEROFF" :: rest) st) as [r st'].
    exact H. }
  unfold _async_send_keys.
  wp_step. wp_step.
  replace (negb ("KEY_POWEROFF" =? "KEY_POWEROFF")%string) with false
    by reflexivity.
  rewrite andb_false_r.
  wp_run.
  split; [reflexivity|]. split; [|same_fields].
  trace_back. simpl. rewrite app_nil_r. reflexivity.
Qed.

(** X7.  [async_media_play_pause] flips the [_playing] flag on every call,
    also when the key is dropped because a power-off is in progress; the
    key it sends otherwise is KEY_PAUSE when the flag was set and KEY_PLAY
    when it was not. *)
Theorem play_pause_toggles (W : World) (now : datetime) (st : St) :
  let (r, st') := async_media_play_pause W now st in
  r = Returned tt
  /\ _playing (self st') = negb (_playing (self st))
  /\ calls_of (log st') =
     calls_of (log st)
     ++ (if _power_off_in_progress now (self st) then []
         else [bridge_async_send_keys
                 [if _playing (self st) then "KEY_PAUSE" else "KEY_PLAY"]]).
Proof.
  enough (H : wp (async_media_play_pause W now)
                (fun r st' =>
                   r = Returned tt
                   /\ _playing (self st') = negb (_playing (self st))
                   /\ calls_of (log st') =
                      calls_of (log st)
                      ++ (if _power_off_in_progress now (self st) then []
                          else [bridge_async_send_keys
                                  [if _playing (self st)
                                   then "KEY_PAUSE" else "KEY_PLAY"]])) st).
  { unfold wp in H. destruct (async_media_play_pause W now st) as [r st'].
    exact H. }
  unfold async_media_play_pause, async_media_pause, async_media_play,
    _async_send_keys.
  wp_step. wp_step.
  destruct (_playing (self st)) eqn:Hp; wp_run.
  all: change (_power_off_in_progress now (set_playing ?b (self st)))
         with (_power_off_in_progress now (self st)).
  all: destruct (_power_off_in_progress now (self st));
    cbn [andb negb String.eqb Ascii.eqb Bool.eqb]; wp_run.
  all: split; [reflexivity|].
  all: split; [fields; try congruence; try reflexivity|].
  all: trace_back; simpl; rewrite ?calls_of_app, ?app_nil_r; reflexivity.
Qed.

(** ** Power *)

(** X8.  [async_turn_on] never talks to the bridge and changes none of the
    entity's settings.  With a turn-on script it runs the script and
    nothing else, and no magic packet is sent even when a MAC address is
    known; without a script and with a MAC address it hands [_wake_on_lan]
    to the executor, and two magic packets are sent, the first to the host
    and the second with no address, as a broadcast; with neither it does
    nothing at all. *)
Theorem turn_on_prefers_script_and_skips_bridge (W : World) (st : St) :
  let (r, st') := async_turn_on W st in
  r = Returned tt
  /\ settings (self st') = settings (self st)
  /\ match _on_script (self st) with
     | Some on_script =>
         calls_of (log st')
         = calls_of (log st) ++ [on_script_async_run on_script]
         /\ magic_packets_of (log st') = magic_packets_of (log st)
     | None =>
         if truthy_str (_mac (self st)) then
           calls_of (log st')
           = calls_of (log st) ++ [hass_async_add_executor_job_wake_on_lan]
           /\ magic_packets_of (log st')
              = magic_packets_of (log st)
                ++ [send_magic_packet (_mac (self st)) (Some (_host (self st)));
                    send_magic_packet (_mac (self st)) None]
         else st' = st
     end.
Proof.
  unfold async_turn_on, bind, get_self. cbn [fst snd].
  destruct (_on_script (self st)) as [on_script|].
  - destruct (await_observed W (on_script_async_run on_script) st)
      as (Hr & Hset & Hcalls & Hpackets).
    destruct (await W (on_script_async_run on_script) st) as [r st'].
    cbn [fst snd] in *. rewrite Hr. unfold ret.
    repeat apply conj; auto.
  - destruct (truthy_str (_mac (self st))); [|unfold ret; auto].
    destruct (await_observed W hass_async_add_executor_job_wake_on_lan st)
      as (Hr & Hset & Hcalls & Hpackets).
    destruct (await W hass_async_add_executor_job_wake_on_lan st) as [r st'].
    cbn [fst snd] in *. rewrite Hr. unfold modify, _wake_on_lan. simpl.
    pose proof Hset as Hfields. unfold settings in Hfields.
    injection Hfields as _ Hhost Hmac _ _ _ _ _ _.
    rewrite !calls_of_app, !magic_packets_of_app, Hcalls, Hpackets, Hhost, Hmac.
    simpl. rewrite !app_nil_r, <- app_assoc. repeat apply conj; auto.
Qed.

(** X9.  A tick that comes after [async_turn_off] and before its
    deadline, the scan interval plus five seconds later, reports the TV
    off without asking the bridge: over the two invocations the only call
    made is the power-off itself (auth-failure flag unset, Home Assistant
    not stopping). *)
Theorem tick_right_after_turn_off_reports_off (W : World) (now now' : datetime)
    (st : St) :
  let st1 := snd (async_turn_off W now st) in
  now' < now + (DEFAULT_SCAN_INTERVAL W + timedelta_seconds 5) ->
  _auth_failed (self st1) = false ->
  is_stopping (hass (self st)) = false ->
  let (r, st2) := async_update W now' st1 in
  r = Returned tt
  /\ _attr_state (self st2) = Some STATE_OFF
  /\ calls_of (log st2) = calls_of (log st) ++ [bridge_async_power_off].
Proof.
  cbv zeta. intros Hlt.
  assert (H1 : wp (async_turn_off W now)
                 (fun _ st1 =>
                    _end_of_power_off (self st1)
                    = Some (now + (DEFAULT_SCAN_INTERVAL W + timedelta_seconds 5))
                    /\ hass (self st1) = hass (self st)
                    /\ calls_of (log st1)
                       = calls_of (log st) ++ [bridge_async_power_off]) st).
  { unfold async_turn_off, SCAN_INTERVAL_PLUS_OFF_TIME. wp_run.
    split; [assumption|]. split; [assumption|].
    trace_back. simpl. rewrite app_nil_r. reflexivity. }
  unfold wp in H1.
  destruct (async_turn_off W now st) as [r1 st1]. simpl in *.
  destruct H1 as (Hend & Hh & Hc).
  intros Hauth Hstop.
  unfold async_update, bind, get_self, _power_off_in_progress.
  rewrite Hauth, Hh, Hstop, Hend. simpl.
  apply Z.gtb_lt in Hlt. rewrite Hlt. simpl.
  repeat apply conj; auto.
Qed.

Lemma tick_right_after_turn_off_reports_off_witness :
  let st1 := snd (async_turn_off world_on 0 (boot (tv None))) in
  let (r, st2) := async_update world_on (timedelta_seconds 1) st1 in
  r = Returned tt
  /\ _attr_state (self st2) = Some STATE_OFF
  /\ calls_of (log st2) = [bridge_async_power_off].
Proof.
  exact (tick_right_after_turn_off_reports_off world_on 0 (timedelta_seconds 1)
           (boot (tv None)) eq_refl eq_refl eq_refl).
Defined.

(** X10.  From [async_turn_off] until its deadline the entity counts as
    available, whatever its state and whatever is known of the
    turn-on script and the MAC address, unless access was denied. *)
Theorem available_while_powering_off (W : World) (now now' : datetime)
    (st : St) :
  let st1 := snd (async_turn_off W now st) in
  now' < now + (DEFAULT_SCAN_INTERVAL W + timedelta_seconds 5) ->
  _auth_failed (self st1) = false ->
  available now' (self st1) = true.
Proof.
  cbv zeta. intros Hlt Hauth.
  assert (H1 : wp (async_turn_off W now)
                 (fun _ st1 =>
                    _end_of_power_off (self st1)
                    = Some (now + (DEFAULT_SCAN_INTERVAL W + timedelta_seconds 5)))
                 st).
  { unfold async_turn_off, SCAN_INTERVAL_PLUS_OFF_TIME. wp_run. assumption. }
  unfold wp in H1.
  unfold available, _power_off_in_progress. rewrite Hauth, H1.
  apply Z.gtb_lt in Hlt. rewrite Hlt. apply orb_true_r.
Qed.

Lemma available_while_powering_off_witness :
  _attr_state (self (boot (tv None))) = None
  /\ available (timedelta_seconds 1)
       (self (snd (async_turn_off world_on 0 (boot (tv None))))) = true.
Proof.
  split; [reflexivity|].
  exact (available_while_powering_off world_on 0 (timedelta_seconds 1)
           (boot (tv None)) eq_refl eq_refl).
Defined.

(** X11.  An entity that counts as available although the TV is not on
    and no power-off is in progress can be turned on: [async_turn_on]
    makes exactly one call, to the turn-on script if there is one and to
    the executor for wake-on-LAN otherwise.  This needs the MAC address,
    when there is one, not to be the empty string: [available] tests it
    against [None], [async_turn_on] for truth. *)
Theorem available_off_tv_can_be_turned_on (W : World) (now : datetime)
    (st : St) :
  available now (self st) = true ->
  _attr_state (self st) <> Some STATE_ON ->
  _power_off_in_progress now (self st) = false ->
  _mac (self st) <> Some "" ->
  calls_of (log (snd (async_turn_on W st)))
  = calls_of (log st)
    ++ [match _on_script (self st) with
        | Some on_script => on_script_async_run on_script
        | None => hass_async_add_executor_job_wake_on_lan
        end].
Proof.
  unfold available. intros Hav Hstate Hoff Hmac.
  destruct (_auth_failed (self st)); [discriminate|].
  rewrite Hoff, orb_false_r in Hav.
  assert (Hs : state_eqb (_attr_state (self st)) (Some STATE_ON) = false).
  { destruct (_attr_state (self st)) as [[|]|]; try reflexivity.
    exfalso. apply Hstate. reflexivity. }
  rewrite Hs in Hav. cbn [orb] in Hav.
  unfold async_turn_on, bind, get_self. cbn [fst snd].
  destruct (_on_script (self st)) as [on_script|].
  - destruct (await_observed W (on_script_async_run on_script) st)
      as (Hr & _ & Hcalls & _).
    destruct (await W (on_script_async_run on_script) st) as [r st'].
    cbn [fst snd] in *. rewrite Hr. exact Hcalls.
  - cbn [is_some orb] in Hav.
    assert (Ht : truthy_str (_mac (self st)) = true).
    { destruct (_mac (self st)) as [mac|]; [|discriminate].
      simpl. destruct (String.eqb_spec mac ""); [|reflexivity].
      exfalso. apply Hmac. congruence. }
    rewrite Ht.
    destruct (await_observed W hass_async_add_executor_job_wake_on_lan st)
      as (Hr & _ & Hcalls & _).
    destruct (await W hass_async_add_executor_job_wake_on_lan st) as [r st'].
    cbn [fst snd] in *. rewrite Hr. unfold modify, _wake_on_lan. simpl.
    rewrite !calls_of_app, Hcalls. simpl. rewrite !app_nil_r. reflexivity.
Qed.

Lemma available_off_tv_can_be_turned_on_witness :
  available 0 (self (boot tv_with_mac)) = true
  /\ calls_of (log (snd (async_turn_on world_off (boot tv_with_mac))))
     = [hass_async_add_executor_job_wake_on_lan].
Proof.
  split; [reflexivity|].
  refine (available_off_tv_can_be_turned_on world_off 0 (boot tv_with_mac)
            eq_refl _ eq_refl _); simpl; discriminate.
Defined.

(** ** The tick *)

(** X12.  A tick that finds the TV off (auth-failure flag unset, Home
    Assistant not stopping, no power-off in progress) asks the bridge
    whether the TV is on and does nothing more: the state becomes
    [STATE_OFF], no start-up task runs, neither the app list nor the DMR
    device is asked for, and the DMR session is left as it was. *)
Theorem tick_with_tv_off_asks_only_the_bridge (W : World) (now : datetime)
    (st : St) :
  _auth_failed (self st) = false ->
  is_stopping (hass (self st)) = false ->
  _power_off_in_progress now (self st) = false ->
  w_is_on W (awaits st) = false ->
  let (r, st') := async_update W now st in
  r = Returned tt
  /\ _attr_state (self st') = Some STATE_OFF
  /\ session (self st') = session (self st)
  /\ calls_of (log st') = calls_of (log st) ++ [bridge_async_is_on].
Proof.
  intros Hauth Hstop Hoff Hon.
  enough (H : wp (async_update W now)
                (fun r st' =>
                   r = Returned tt
                   /\ _attr_state (self st') = Some STATE_OFF
                   /\ session (self st') = session (self st)
                   /\ calls_of (log st')
                      = calls_of (log st) ++ [bridge_async_is_on]) st).
  { unfold wp in H. destruct (async_update W now st) as [r st']. exact H. }
  unfold async_update.
  wp_run. cbn [state_eqb negb]. wp_run.
  split; [reflexivity|]. split; [reflexivity|]. split; [same_fields|].
  trace_back. simpl. rewrite app_nil_r. reflexivity.
Qed.

Lemma tick_with_tv_off_asks_only_the_bridge_witness :
  let (r, st') := async_update world_off 0 (boot (tv (Some dmr_location))) in
  r = Returned tt
  /\ _attr_state (self st') = Some STATE_OFF
  /\ session (self st') = (None, None)
  /\ calls_of (log st') = [bridge_async_is_on].
Proof.
  exact (tick_with_tv_off_asks_only_the_bridge world_off 0
           (boot (tv (Some dmr_location))) eq_refl eq_refl eq_refl eq_refl).
Defined.

(** X13.  A tick that finds the TV on (auth-failure flag unset, Home
    Assistant not stopping, no power-off in progress) and returns ends
    with the app-list event set, whether the event was set before, the
    bridge delivered the app list in time, or the wait timed out.  (A tick
    that raises, because the DMR start-up beside the app-list start-up
    raised, is not covered: the app-list start-up may then still be
    waiting.) *)
Theorem on_tick_resolves_gate (W : World) (now : datetime) (st : St) :
  _auth_failed (self st) = false ->
  is_stopping (hass (self st)) = false ->
  _power_off_in_progress now (self st) = false ->
  w_is_on W (awaits st) = true ->
  fst (async_update W now st) = Returned tt ->
  _app_list_event (self (snd (async_update W now st))) = true.
Proof.
  intros Hauth Hstop Hoff Hon _.
  enough (H : wp (async_update W now)
                (fun _ st' => _app_list_event (self st') = true) st)
    by exact H.
  unfold async_update.
  wp_run. cbn [state_eqb negb].
  destruct (bool_dec (_app_list_event (self st0)) true) as [Hev|Hev];
    [|apply not_true_is_false in Hev; rewrite Hev].
  - eapply wp_consequence.
    { apply (respects_wp keeps_gate).
      respect. respect_startup_tasks; respect. }
    cbn beta. intros _ st' Hk. apply Hk. exact Hev.
  - wp_step.
    destruct (negb (is_some (_dmr_device (self st0)))
              && truthy_str (_ssdp_rendering_control_location (self st0)));
      cbn [negb app]; wp_step.
    all: (eapply wp_consequence; [apply startup_app_list_settles|]);
      cbn beta; intros r1 st1 (_ & _ & _ & Hev1).
    + wp_step.
      eapply wp_consequence;
        [apply (respects_wp keeps_gate), startup_dmr_keeps_gate|].
      cbn beta. intros r2 st2 Hk. specialize (Hk Hev1).
      wp_step.
      destruct r1, r2; cbn beta iota; try exact Hk.
      apply (update_from_upnp_undisturbed st2). exact Hk.
    + wp_step.
      destruct r1; cbn beta iota; try exact Hev1.
      apply (update_from_upnp_undisturbed st1). exact Hev1.
Qed.

Lemma on_tick_resolves_gate_witness :
  _app_list_event (self (boot (tv (Some dmr_location)))) = false
  /\ fst (async_update world_on 0 (boot (tv (Some dmr_location))))
     = Returned tt
  /\ _app_list_event
       (self (snd (async_update world_on 0
                     (boot (tv (Some dmr_location)))))) = true.
Proof.
  split; [reflexivity|]. split; [reflexivity|].
  exact (on_tick_resolves_gate world_on 0
           (boot (tv (Some dmr_location)))
           eq_refl eq_refl eq_refl eq_refl eq_refl).
Defined.

(** X14.  When the bridge delivers the app list while
    [_async_startup_app_list] is awaiting its request, the start-up does
    not wait: the request is its only call, and it returns with the app
    list stored and the app-list event set. *)
Theorem startup_app_list_skips_wait_when_delivered (W : World) (st : St)
    (app_list : dict) :
  In (app_list_received app_list) (w_delivered W (awaits st)) ->
  let (r, st') := _async_startup_app_list W st in
  r = Returned tt
  /\ _app_list_event (self st') = true
  /\ _app_list (self st') <> None
  /\ calls_of (log st') = calls_of (log st) ++ [bridge_async_request_app_list].
Proof.
  intros Hin.
  destruct (await_observed W bridge_async_request_app_list st)
    as (Hr & _ & Hcalls & _).
  assert (Hk : app_list_known
                 (self (snd (await W bridge_async_request_app_list st)))).
  { unfold await. simpl.
    apply (deliveries_make_app_list_known _ app_list), Hin. }
  unfold _async_startup_app_list, _bridge_async_request_app_list, bind,
    get_self.
  destruct (await W bridge_async_request_app_list st) as [r st'].
  cbn [fst snd] in *. rewrite Hr. destruct Hk as [Hev Happ].
  unfold ret at 1. cbn [fst snd]. rewrite Hev. unfold ret.
  repeat apply conj; auto.
Qed.

Lemma startup_app_list_skips_wait_when_delivered_witness :
  let (r, st') := _async_startup_app_list world_delivers_apps (boot (tv None)) in
  r = Returned tt
  /\ _app_list_event (self st') = true
  /\ _app_list (self st') <> None
  /\ calls_of (log st') = [bridge_async_request_app_list].
Proof.
  exact (startup_app_list_skips_wait_when_delivered world_delivers_apps
           (boot (tv None)) [("Netflix", "11101200001")]
           (or_introl eq_refl)).
Defined.

(** X15.  A tick that finds the TV on with the app-list event set and a
    DMR session open (auth-failure flag unset, Home Assistant not
    stopping, no power-off in progress) starts nothing: its only call is
    the bridge's is-on query and the session is left as it is.  At its end
    the state is [STATE_ON] and the entity's volume level and mute flag
    are those the DMR device holds, for each of the two the device holds a
    value for. *)
Theorem tick_with_open_session_polls_device (W : World) (now : datetime)
    (st : St) (r : nat) :
  _auth_failed (self st) = false ->
  is_stopping (hass (self st)) = false ->
  _power_off_in_progress now (self st) = false ->
  w_is_on W (awaits st) = true ->
  _app_list_event (self st) = true ->
  _dmr_device (self st) = Some r ->
  let (res, st') := async_update W now st in
  res = Returned tt
  /\ _attr_state (self st') = Some STATE_ON
  /\ session (self st') = session (self st)
  /\ calls_of (log st') = calls_of (log st) ++ [bridge_async_is_on]
  /\ forall o, nth_error (dmr_devices st') r = Some o ->
       (forall v, volume_level o = Some v ->
                  _attr_volume_level (self st') = Some v)
       /\ (forall m, is_volume_muted o = Some m ->
                     _attr_is_volume_muted (self st') = m).
Proof.
  intros Hauth Hstop Hoff Hon Hev Hd.
  enough (H : wp (async_update W now)
                (fun res st' =>
                   res = Returned tt
                   /\ _attr_state (self st') = Some STATE_ON
                   /\ session (self st') = session (self st)
                   /\ calls_of (log st')
                      = calls_of (log st) ++ [bridge_async_is_on]
                   /\ forall o, nth_error (dmr_devices st') r = Some o ->
                        (forall v, volume_level o = Some v ->
                                   _attr_volume_level (self st') = Some v)
                        /\ (forall m, is_volume_muted o = Some m ->
                                      _attr_is_volume_muted (self st') = m))
                st).
  { unfold wp in H. destruct (async_update W now st) as [res st']. exact H. }
  unfold async_update.
  wp_run. cbn [state_eqb negb]. wp_run.
  rewrite (Hgate Hev). cbn [negb]. wp_run.
  set (st1 := with_self (set_attr_state (Some STATE_ON)) st0).
  assert (Hd1 : _dmr_device (self st1) = Some r)
    by (unfold st1; simpl; congruence).
  split; [reflexivity|].
  assert (Hcalls1 : calls_of (log st1)
                    = calls_of (log st) ++ [bridge_async_is_on]).
  { unfold st1. simpl. rewrite Hlog, !calls_of_app, Hcalls. simpl.
    apply app_nil_r. }
  assert (Hses1 : session (self st1) = session (self st))
    by (unfold st1, session; simpl; congruence).
  destruct (nth_error (dmr_devices st1) r) as [o1|] eqn:Ho1.
  - destruct (update_from_upnp_polls st1 r o1 Hd1 Ho1)
      as (Hh & Hl & Hs & Hse & Hv & Hm).
    rewrite Hs, Hse, Hl, Hh.
    repeat apply conj; try assumption; try reflexivity.
    intros o Ho. rewrite Ho1 in Ho. injection Ho as <-. split; assumption.
  - unfold _update_from_upnp. rewrite Hd1, Ho1.
    repeat apply conj; try assumption; try reflexivity.
    intros o Ho. congruence.
Qed.

Lemma tick_with_open_session_polls_device_witness :
  let (res, st') := async_update world_on (timedelta_seconds 15) st_first_tick in
  res = Returned tt
  /\ _attr_state (self st') = Some STATE_ON
  /\ session (self st') = (Some 0%nat, Some 0%nat)
  /\ calls_of (log st')
     = calls_of (log st_first_tick) ++ [bridge_async_is_on]
  /\ forall o, nth_error (dmr_devices st') 0 = Some o ->
       (forall v, volume_level o = Some v ->
                  _attr_volume_level (self st') = Some v)
       /\ (forall m, is_volume_muted o = Some m ->
                     _attr_is_volume_muted (self st') = m).
Proof.
  exact (tick_with_open_session_polls_device world_on (timedelta_seconds 15)
           st_first_tick 0 eq_refl eq_refl eq_refl eq_refl eq_refl eq_refl).
Defined.

(** X16.  Once access was denied, the auth-failure flag stays set through
    every later invocation and callback, and every later tick returns at
    once: it asks the bridge nothing and changes nothing. *)
Theorem auth_failure_is_sticky (W : World) (calls : list (datetime * Method))
    (now : datetime) (st : St) :
  _auth_failed (self st) = true ->
  let st1 := lifetime W calls st in
  _auth_failed (self st1) = true
  /\ async_update W now st1 = (Returned tt, st1).
Proof.
  intros Hauth. cbv zeta.
  assert (H : forall st, _auth_failed (self st) = true ->
                         _auth_failed (self (lifetime W calls st)) = true).
  { induction calls as [|[t m] calls IH]; intros s Hs; simpl; [exact Hs|].
    apply IH. apply (invoke_keeps_auth_failed W t m s Hs). }
  specialize (H st Hauth). split; [exact H|].
  unfold async_update, bind, get_self. rewrite H. reflexivity.
Qed.

Lemma auth_failure_is_sticky_witness :
  let st1 :=
    lifetime world_on
      [(0, m_async_turn_on); (timedelta_seconds 1, m_async_update);
       (timedelta_seconds 2, m_async_volume_up)]
      st_denied in
  _auth_failed (self st1) = true
  /\ async_update world_on (timedelta_seconds 3) st1 = (Returned tt, st1).
Proof.
  exact (auth_failure_is_sticky world_on
           [(0, m_async_turn_on); (timedelta_seconds 1, m_async_update);
            (timedelta_seconds 2, m_async_volume_up)]
           (timedelta_seconds 3) st_denied eq_refl).
Defined.

(** X17.  The power-off deadline is moved by [async_turn_off] alone: any
    sequence of other invocations and callbacks, ticks included, leaves
    the stored deadline exactly as it was. *)
Theorem only_turn_off_moves_deadline (W : World)
    (calls : list (datetime * Method)) (st : St) :
  Forall (fun call => snd call <> m_async_turn_off) calls ->
  _end_of_power_off (self (lifetime W calls st)) = _end_of_power_off (self st).
Proof.
  intros Hcalls. revert st.
  induction Hcalls as [|[now m] calls Hm _ IH]; intros st; simpl.
  - reflexivity.
  - rewrite IH. apply (invoke_keeps_deadline W now m Hm st).
Qed.

Lemma only_turn_off_moves_deadline_witness :
  _end_of_power_off
    (self (lifetime world_on
             [(timedelta_seconds 30, m_async_update);
              (timedelta_seconds 31, m_async_volume_up)]
             st_turned_off))
  = Some (timedelta_seconds 20).
Proof.
  refine (only_turn_off_moves_deadline world_on
            [(timedelta_seconds 30, m_async_update);
             (timedelta_seconds 31, m_async_volume_up)]
            st_turned_off _).
  apply Forall_cons; [simpl; discriminate|].
  apply Forall_cons; [simpl; discriminate|].
  apply Forall_nil.
Defined.

(** ** The DMR session *)

(** X18.  When, in [_async_startup_dmr], the device cannot be created, no
    session is opened: nothing is allocated, [_dmr_device] and
    [_upnp_server] stay as they were, and the creation is the only call
    made.  A connection error is swallowed, so that a later tick tries
    again; any other error reaches the caller. *)
Theorem startup_dmr_aborts_quietly_when_unreachable (W : World) (st : St)
    (location : string) (e : Exn) :
  _ssdp_rendering_control_location (self st) = Some location ->
  _dmr_device (self st) = None ->
  w_create_device W (awaits st) = Some e ->
  let (r, st') := _async_startup_dmr W st in
  r = (if isinstance e UpnpConnectionError then Returned tt else Raised e)
  /\ session (self st') = session (self st)
  /\ map dmr_shape (dmr_devices st') = map dmr_shape (dmr_devices st)
  /\ upnp_servers st' = upnp_servers st
  /\ calls_of (log st') =
     calls_of (log st) ++ [upnp_factory_async_create_device location].
Proof.
  intros Hloc Hdmr Hcreate.
  enough (H : wp (_async_startup_dmr W)
                (fun r st' =>
                   r = (if isinstance e UpnpConnectionError
                        then Returned tt else Raised e)
                   /\ session (self st') = session (self st)
                   /\ map dmr_shape (dmr_devices st')
                      = map dmr_shape (dmr_devices st)
                   /\ upnp_servers st' = upnp_servers st
                   /\ calls_of (log st') =
                      calls_of (log st)
                      ++ [upnp_factory_async_create_device location]) st).
  { unfold wp in H. destruct (_async_startup_dmr W st) as [r st']. exact H. }
  unfold _async_startup_dmr.
  wp_run.
  destruct (isinstance e UpnpConnectionError); wp_run.
  all: split; [reflexivity|].
  all: split; [same_fields|].
  all: split; [assumption|].
  all: split; [assumption|].
  all: trace_back; simpl; rewrite app_nil_r; reflexivity.
Qed.

Lemma startup_dmr_aborts_quietly_when_unreachable_witness :
  let (r, st') :=
    _async_startup_dmr world_unreachable (boot (tv (Some dmr_location))) in
  r = Returned tt
  /\ session (self st') = (None, None)
  /\ map dmr_shape (dmr_devices st') = []
  /\ upnp_servers st' = []
  /\ calls_of (log st') = [upnp_factory_async_create_device dmr_location].
Proof.
  exact (startup_dmr_aborts_quietly_when_unreachable world_unreachable
           (boot (tv (Some dmr_location))) dmr_location UpnpConnectionError
           eq_refl eq_refl eq_refl).
Defined.

(** X19.  When the device is created and the subscription either succeeds
    or is rejected by the device with an [UpnpResponseError],
    [_async_startup_dmr] returns with the session open: [_dmr_device] and
    [_upnp_server] refer to the two objects just allocated, the notify
    server runs, [on_event] is attached, and the four calls were made in
    the order create, local ip, start server, subscribe.  A rejection
    releases nothing. *)
Theorem startup_dmr_opens_session_even_if_rejected (W : World) (st : St)
    (location : string) :
  _ssdp_rendering_control_location (self st) = Some location ->
  _dmr_device (self st) = None ->
  w_create_device W (awaits st) = None ->
  (w_subscribe W (awaits st + 3) = None
   \/ exists e, w_subscribe W (awaits st + 3) = Some e
                /\ isinstance e UpnpResponseError = true) ->
  let (r, st') := _async_startup_dmr W st in
  r = Returned tt
  /\ session (self st')
     = (Some (List.length (dmr_devices st)),
        Some (List.length (upnp_servers st)))
  /\ map dmr_shape (dmr_devices st') =
     map dmr_shape (dmr_devices st)
     ++ [(MkUpnpDevice location, List.length (upnp_servers st), true)]
  /\ map ns_running (upnp_servers st') =
     map ns_running (upnp_servers st) ++ [true]
  /\ calls_of (log st') =
     calls_of (log st)
     ++ [upnp_factory_async_create_device location;
         async_get_local_ip location;
         upnp_server_async_start_server (List.length (upnp_servers st));
         dmr_device_async_subscribe_services
           (List.length (dmr_devices st)) true].
Proof.
  intros Hloc Hdmr Hcreate Hsub.
  pose proof (startup_dmr_connects W st location Hloc Hdmr Hcreate Hsub) as H.
  unfold wp in H. destruct (_async_startup_dmr W st) as [r st']. exact H.
Qed.

Lemma startup_dmr_opens_session_even_if_rejected_witness :
  let (r, st') :=
    _async_startup_dmr world_rejects (boot (tv (Some dmr_location))) in
  r = Returned tt
  /\ session (self st') = (Some 0%nat, Some 0%nat)
  /\ map dmr_shape (dmr_devices st')
     = [(MkUpnpDevice dmr_location, 0%nat, true)]
  /\ map ns_running (upnp_servers st') = [true]
  /\ calls_of (log st') =
     [upnp_factory_async_create_device dmr_location;
      async_get_local_ip dmr_location;
      upnp_server_async_start_server 0;
      dmr_device_async_subscribe_services 0 true].
Proof.
  exact (startup_dmr_opens_session_even_if_rejected world_rejects
           (boot (tv (Some dmr_location))) dmr_location
           eq_refl eq_refl eq_refl
           (or_intror (ex_intro _ UpnpResponseError (conj eq_refl eq_refl)))).
Defined.

(** X20.  [_async_shutdown_dmr] always returns and leaves no session:
    [_dmr_device] and [_upnp_server] are [None]; the device, if there was
    one, has [on_event] detached and is unsubscribed; the server, if there
    was one, is stopped; these are the only calls, in that order, and
    nothing else on the heap changes.  A second shutdown calls nothing. *)
Theorem shutdown_dmr_releases_session_once (W : World) (st : St) :
  let (r, st') := _async_shutdown_dmr W st in
  r = Returned tt
  /\ _dmr_device (self st') = None
  /\ _upnp_server (self st') = None
  /\ calls_of (log st') =
     calls_of (log st)
     ++ match _dmr_device (self st) with
        | Some dmr => [dmr_device_async_unsubscribe_services dmr]
        | None => []
        end
     ++ match _upnp_server (self st) with
        | Some server => [upnp_server_async_stop_server server]
        | None => []
        end
  /\ map dmr_shape (dmr_devices st') =
     map dmr_shape
       match _dmr_device (self st) with
       | Some dmr => list_update (dmr_devices st) dmr (set_on_event false)
       | None => dmr_devices st
       end
  /\ upnp_servers st' =
     match _upnp_server (self st) with
     | Some server => list_update (upnp_servers st) server (set_running false)
     | None => upnp_servers st
     end
  /\ calls_of (log (snd (_async_shutdown_dmr W st'))) = calls_of (log st').
Proof.
  pose proof (shutdown_dmr_spec W st) as H. unfold wp in H.
  destruct (_async_shutdown_dmr W st) as [r st']. simpl in H.
  destruct H as (Hr & Hses & _ & Hc & Hd & Hs).
  unfold session in Hses. injection Hses as Hd1 Hs1.
  repeat apply conj; try assumption.
  pose proof (shutdown_dmr_spec W st') as H'. unfold wp in H'.
  destruct H' as (_ & _ & _ & Hc' & _).
  rewrite Hc', Hd1, Hs1. simpl. apply app_nil_r.
Qed.

(** X21.  A session opened by [_async_startup_dmr] and then released by
    [async_will_remove_from_hass] leaves nothing behind: the entity refers
    to neither object, the device allocated by the start-up has [on_event]
    detached, the notify server it started is stopped, and the calls made
    are create, local ip, start server, subscribe, unsubscribe, stop
    server, in that order.  Objects allocated earlier are untouched. *)
Theorem session_round_trip (W : World) (st : St) (location : string) :
  _ssdp_rendering_control_location (self st) = Some location ->
  _dmr_device (self st) = None ->
  w_create_device W (awaits st) = None ->
  (w_subscribe W (awaits st + 3) = None
   \/ exists e, w_subscribe W (awaits st + 3) = Some e
                /\ isinstance e UpnpResponseError = true) ->
  let st1 := snd (_async_startup_dmr W st) in
  let st2 := snd (async_will_remove_from_hass W st1) in
  session (self st2) = (None, None)
  /\ map dmr_shape (dmr_devices st2) =
     map dmr_shape (dmr_devices st)
     ++ [(MkUpnpDevice location, List.length (upnp_servers st), false)]
  /\ map ns_running (upnp_servers st2) =
     map ns_running (upnp_servers st) ++ [false]
  /\ calls_of (log st2) =
     calls_of (log st)
     ++ [upnp_factory_async_create_device location;
         async_get_local_ip location;
         upnp_server_async_start_server (List.length (upnp_servers st));
         dmr_device_async_subscribe_services
           (List.length (dmr_devices st)) true;
         dmr_device_async_unsubscribe_services (List.length (dmr_devices st));
         upnp_server_async_stop_server (List.length (upnp_servers st))].
Proof.
  intros Hloc Hdmr Hcreate Hsub. cbv zeta. unfold async_will_remove_from_hass.
  pose proof (startup_dmr_connects W st location Hloc Hdmr Hcreate Hsub) as H1.
  unfold wp in H1. destruct H1 as (_ & Hses & Hshape & Hrun & Hcalls).
  remember (snd (_async_startup_dmr W st)) as st1 eqn:E. clear E.
  unfold session in Hses. injection Hses as Hd Hs.
  pose proof (shutdown_dmr_spec W st1) as H2. unfold wp in H2.
  destruct H2 as (_ & Hses2 & _ & Hcalls2 & Hshape2 & Hsrv2).
  rewrite Hd, Hs in *.
  split; [exact Hses2|]. split; [|split].
  - rewrite Hshape2.
    rewrite (map_list_update dmr_shape (set_on_event false)
               (fun s => (fst (fst s), snd (fst s), false)))
      by reflexivity.
    rewrite Hshape, <- (length_map dmr_shape (dmr_devices st)).
    rewrite list_update_last. reflexivity.
  - rewrite Hsrv2.
    rewrite (map_list_update ns_running (set_running false) (fun _ => false))
      by reflexivity.
    rewrite Hrun, <- (length_map ns_running (upnp_servers st)).
    rewrite list_update_last. reflexivity.
  - rewrite Hcalls2, Hcalls, <- app_assoc. reflexivity.
Qed.

Lemma session_round_trip_witness :
  let st1 :=
    snd (_async_startup_dmr world_rejects (boot (tv (Some dmr_location)))) in
  let st2 := snd (async_will_remove_from_hass world_rejects st1) in
  session (self st2) = (None, None)
  /\ map dmr_shape (dmr_devices st2)
     = [(MkUpnpDevice dmr_location, 0%nat, false)]
  /\ map ns_running (upnp_servers st2) = [false]
  /\ calls_of (log st2) =
     [upnp_factory_async_create_device dmr_location;
      async_get_local_ip dmr_location;
      upnp_server_async_start_server 0;
      dmr_device_async_subscribe_services 0 true;
      dmr_device_async_unsubscribe_services 0;
      upnp_server_async_stop_server 0].
Proof.
  exact (session_round_trip world_rejects (boot (tv (Some dmr_location)))
           dmr_location eq_refl eq_refl eq_refl
           (or_intror (ex_intro _ UpnpResponseError (conj eq_refl eq_refl)))).
Defined.


(** X23.  After [_async_shutdown_dmr], a notification that the released
    device still sends does not reach the entity: its attributes are
    unchanged and no state is written. *)
Theorem events_stop_at_shutdown (W : World) (st : St) (dmr : nat)
    (volume : option float) (muted : option bool) :
  _dmr_device (self st) = Some dmr ->
  let st1 := snd (_async_shutdown_dmr W st) in
  let st2 := deliver (upnp_notify dmr volume muted) st1 in
  self st2 = self st1 /\ log st2 = log st1.
Proof.
  intros Hd. cbv zeta.
  pose proof (shutdown_dmr_spec W st) as H. unfold wp in H.
  destruct H as (_ & _ & _ & _ & Hshape & _). rewrite Hd in Hshape.
  apply notify_detached.
  assert (E : option_map dmr_shape
                (nth_error (dmr_devices (snd (_async_shutdown_dmr W st))) dmr)
              = option_map dmr_shape
                  (nth_error (list_update (dmr_devices st) dmr
                                (set_on_event false)) dmr)).
  { rewrite !shape_at, Hshape. reflexivity. }
  rewrite nth_error_list_update in E.
  destruct (nth_error (dmr_devices (snd (_async_shutdown_dmr W st))) dmr)
    as [o|]; [|discriminate].
  destruct (nth_error (dmr_devices st) dmr) as [o0|]; [|discriminate].
  simpl in *. injection E as _ _ E. rewrite E. discriminate.
Qed.

Lemma events_stop_at_shutdown_witness :
  _attr_volume_level
    (self (deliver (upnp_notify 0 (Some 30) None) st_connected)) = Some 30
  /\ let st1 := snd (_async_shutdown_dmr world_on st_connected) in
     let st2 := deliver (upnp_notify 0 (Some 30) None) st1 in
     self st2 = self st1 /\ log st2 = log st1.
Proof.
  split; [reflexivity|].
  exact (events_stop_at_shutdown world_on st_connected 0 (Some 30) None
           eq_refl).
Defined.

(** X24.  Once [_async_startup_dmr] has opened a session, also when the
    subscription was rejected, a notification of the new device that
    carries a volume reaches the entity: the volume level becomes the one
    notified and the state is written, once. *)
Theorem events_reach_entity_once_connected (W : World) (st : St)
    (location : string) (v : float) (muted : option bool) :
  _ssdp_rendering_control_location (self st) = Some location ->
  _dmr_device (self st) = None ->
  w_create_device W (awaits st) = None ->
  (w_subscribe W (awaits st + 3) = None
   \/ exists e, w_subscribe W (awaits st + 3) = Some e
                /\ isinstance e UpnpResponseError = true) ->
  let st1 := snd (_async_startup_dmr W st) in
  let st2 :=
    deliver (upnp_notify (List.length (dmr_devices st)) (Some v) muted) st1 in
  _attr_volume_level (self st2) = Some v
  /\ log st2 = log st1 ++ [Did async_write_ha_state].
Proof.
  intros Hloc Hdmr Hcreate Hsub. cbv zeta.
  pose proof (startup_dmr_connects W st location Hloc Hdmr Hcreate Hsub) as H.
  unfold wp in H. destruct H as (_ & Hses & Hshape & _).
  unfold session in Hses. injection Hses as Hd _.
  assert (E : option_map dmr_shape
                (nth_error (dmr_devices (snd (_async_startup_dmr W st)))
                   (List.length (dmr_devices st)))
              = Some (MkUpnpDevice location, List.length (upnp_servers st),
                      true)).
  { rewrite shape_at, Hshape.
    rewrite <- (length_map dmr_shape (dmr_devices st)).
    rewrite nth_error_app2, Nat.sub_diag by lia. reflexivity. }
  destruct (nth_error (dmr_devices (snd (_async_startup_dmr W st)))
              (List.length (dmr_devices st))) as [o|] eqn:Ho; [|discriminate].
  simpl in E. injection E as _ _ E.
  apply (notify_attached _ _ o); assumption.
Qed.

Lemma events_reach_entity_once_connected_witness :
  let st1 :=
    snd (_async_startup_dmr world_on (boot (tv (Some dmr_location)))) in
  let st2 := deliver (upnp_notify 0 (Some 30) (Some true)) st1 in
  _attr_volume_level (self st2) = Some 30
  /\ log st2 = log st1 ++ [Did async_write_ha_state].
Proof.
  exact (events_reach_entity_once_connected world_on
           (boot (tv (Some dmr_location))) dmr_location 30 (Some true)
           eq_refl eq_refl eq_refl (or_introl eq_refl)).
Defined.

(** X25.  [async_set_volume_level] sends no key and changes neither the
    entity's settings nor its DMR session.  Without a DMR device it logs
    that the UPnP services are not available and calls nothing; with one
    it makes exactly one call, to the device, and a rejection of the
    action by the device is swallowed: the caller sees an error only if
    the call raises something other than an [UpnpActionResponseError]. *)
Theorem set_volume_level_swallows_rejection (W : World) (volume : float)
    (st : St) :
  let (r, st') := async_set_volume_level W volume st in
  settings (self st') = settings (self st)
  /\ session (self st') = session (self st)
  /\ match _dmr_device (self st) with
     | None =>
         r = Returned tt
         /\ st' = emit (Logged INFO "Upnp services are not available on %s") st
     | Some dmr =>
         calls_of (log st') =
         calls_of (log st) ++ [dmr_device_async_set_volume_level dmr volume]
         /\ r = match w_set_volume W (awaits st) with
                | None => Returned tt
                | Some e =>
                    if isinstance e UpnpActionResponseError
                    then Returned tt else Raised e
                end
     end.
Proof.
  enough (H : wp (async_set_volume_level W volume)
                (fun r st' =>
                   settings (self st') = settings (self st)
                   /\ session (self st') = session (self st)
                   /\ match _dmr_device (self st) with
                      | None =>
                          r = Returned tt
                          /\ st' = emit (Logged INFO
                                    "Upnp services are not available on %s") st
                      | Some dmr =>
                          calls_of (log st') =
                          calls_of (log st)
                          ++ [dmr_device_async_set_volume_level dmr volume]
                          /\ r = match w_set_volume W (awaits st) with
                                 | None => Returned tt
                                 | Some e =>
                                     if isinstance e UpnpActionResponseError
                                     then Returned tt else Raised e
                                 end
                      end) st).
  { unfold wp in H. destruct (async_set_volume_level W volume st) as [r st'].
    exact H. }
  unfold async_set_volume_level.
  wp_step. wp_step.
  destruct (_dmr_device (self st)) as [dmr|] eqn:Hdmr.
  - wp_run.
    destruct (w_set_volume W (awaits st)) as [e|]; wp_run.
    + destruct (isinstance e UpnpActionResponseError); wp_run.
      all: split; [same_fields|].
      all: split; [same_fields|].
      all: split; [|reflexivity].
      all: trace_back; simpl; rewrite ?app_nil_r; reflexivity.
    + split; [same_fields|]. split; [same_fields|]. split; [|reflexivity].
      trace_back; simpl; rewrite ?app_nil_r; reflexivity.
  - wp_run. repeat apply conj; reflexivity.
Qed.
